(** * Conversation-log deduplicator and AICF token analyzer

    A shallow embedding of [scripts/dedupe-conversation-log.py] and
    [test-aicf-efficiency.py], and the properties their specification
    states about them.

    Python [str] values are sequences of Unicode code points, so a piece
    of text is a [list N] of code points here.  The regular expressions of
    both scripts are [str] patterns, hence Unicode aware: [\d], [\s] and
    [\w] consult the interpreter's character tables.  Those tables are not
    part of the repository; the embedding takes them as a record
    [unicode_data] and every definition that depends on them takes that
    record as its first argument. *)

From stdpp Require Import base option list gmap sets strings.
From Stdlib Require Import ZArith QArith Lia.

#[local] Set Warnings "-clear-no-such-hyp".

Close Scope Q_scope.
Open Scope N_scope.

(** ** Text *)

Abbreviation text := (list N).

(** An ASCII literal as a sequence of code points. *)
Definition str (s : string) : text :=
  Ascii.N_of_ascii <$> String.list_ascii_of_string s.

(** The literal pieces of the scripts' patterns. *)
Definition section_marker : text := Eval vm_compute in str "## ".
Definition chat_marker : text := Eval vm_compute in str "## Chat ".
Definition separator : text := Eval vm_compute in str " - ".
Definition dash : text := Eval vm_compute in str "-".

(** The character classes the interpreter supplies:
    [isdecimal] is what [\d] tests, [isspace] what [\s] and [str.strip]
    test, and [\w] is [isalnum] or an underscore. *)
Record unicode_data := UnicodeData {
  isdecimal : N → bool;
  isspace : N → bool;
  isalnum : N → bool
}.

Definition in_range (lo hi c : N) : bool := (lo <=? c) && (c <=? hi).

(** The three tables restricted to code points below 256, where they are
    short enough to write down.  Above 255 this instance answers [false];
    it is meant for texts within Latin-1. *)
Definition latin1_isdecimal (c : N) : bool := in_range 48 57 c.

Definition latin1_isspace (c : N) : bool :=
  in_range 9 13 c || in_range 28 32 c || (c =? 133) || (c =? 160).

Definition latin1_isalnum (c : N) : bool :=
  in_range 48 57 c || in_range 65 90 c || in_range 97 122 c
  || (c =? 170) || (c =? 178) || (c =? 179) || (c =? 181)
  || (c =? 185) || (c =? 186) || in_range 188 190 c
  || in_range 192 214 c || in_range 216 246 c || in_range 248 255 c.

Definition latin1 : unicode_data :=
  UnicodeData latin1_isdecimal latin1_isspace latin1_isalnum.

(** ** String primitives used by the scripts *)

(** A literal piece of a pattern: the rest of [s] after [lit], if [s]
    starts with it. *)
Fixpoint match_literal (lit s : text) : option text :=
  match lit, s with
  | [], _ => Some s
  | a :: lit', b :: s' => if a =? b then match_literal lit' s' else None
  | _ :: _, [] => None
  end.

(** [s.startswith(p)] *)
Definition startswith (p s : text) : bool :=
  bool_decide (is_Some (match_literal p s)).

(** The longest prefix of [s] whose characters satisfy [cls], and what
    follows it: how a greedy [[cls]*] consumes input. *)
Fixpoint span (cls : N → bool) (s : text) : text * text :=
  match s with
  | c :: s' =>
      if cls c then let '(run, rest) := span cls s' in (c :: run, rest)
      else ([], s)
  | [] => ([], [])
  end.

(** [cls{n}]: exactly [n] characters of the class. *)
Fixpoint match_count (cls : N → bool) (n : nat) (s : text)
  : option (text * text) :=
  match n, s with
  | O, _ => Some ([], s)
  | S n', c :: s' =>
      if cls c then
        '(run, rest) ← match_count cls n' s'; Some (c :: run, rest)
      else None
  | S _, [] => None
  end.

Definition newline : N := 10.

(** [content.split('\n')]: the pieces between line feeds; never empty. *)
Fixpoint split_lines (content : text) : list text :=
  match content with
  | [] => [[]]
  | c :: content' =>
      if c =? newline then [] :: split_lines content'
      else match split_lines content' with
           | first :: others => (c :: first) :: others
           | [] => [[c]]
           end
  end.

(** ['\n'.join(lines)] *)
Fixpoint join_lines (lines : list text) : text :=
  match lines with
  | [] => []
  | [l] => l
  | l :: ls => l ++ newline :: join_lines ls
  end.

(** ** The header pattern

    [re.match(r'^## Chat ([a-f0-9]+) - (\d{4}-\d{2}-\d{2}) - (.+)$', line)] *)

Definition is_hex (c : N) : bool := in_range 97 102 c || in_range 48 57 c.

Definition not_newline (c : N) : bool := negb (c =? newline).

Section Header.
Context (ucd : unicode_data).

(** [\d{4}-\d{2}-\d{2}]: the matched date and the rest of the line. *)
Definition match_date (s : text) : option (text * text) :=
  '(yyyy, s) ← match_count (isdecimal ucd) 4 s;
  s ← match_literal dash s;
  '(mm, s) ← match_count (isdecimal ucd) 2 s;
  s ← match_literal dash s;
  '(dd, s) ← match_count (isdecimal ucd) 2 s;
  Some (yyyy ++ dash ++ mm ++ dash ++ dd, s).

(** [(.+)$]: a dot matches anything but a line feed, and [$] matches at
    the end of the string or just before a line feed that ends it. *)
Definition match_title (s : text) : option text :=
  let '(title, rest) := span not_newline s in
  match title, rest with
  | _ :: _, [] => Some title
  | _ :: _, [c] => if c =? newline then Some title else None
  | _, _ => None
  end.

(** The three groups [(conv_id, date, title)] of a match, or [None].
    The identifier is the longest run of [[a-f0-9]]: a shorter one would
    leave a hexadecimal character where the pattern demands a space, so
    backtracking never finds another match. *)
Definition chat_match (line : text) : option (text * text * text) :=
  s ← match_literal chat_marker line;
  let '(conv_id, s) := span is_hex s in
  if bool_decide (conv_id = []) then None else
  s ← match_literal separator s;
  '(date, s) ← match_date s;
  s ← match_literal separator s;
  title ← match_title s;
  Some (conv_id, date, title).

End Header.

(** [f"{conv_id}-{date}"] *)
Definition conversation_key (conv_id date : text) : text :=
  conv_id ++ dash ++ date.

(** ** The scanning loop of [dedupe_conversation_log]

    The four variables the loop mutates.  The progress lines it prints
    ("Keeping", "Removing duplicate") carry no state and are left out. *)

Record scan_state := ScanState {
  seen_conversations : gset (list N);
  filtered_lines : list (list N);
  current_conversation : option (list N);
  skip_until_next : bool
}.

Definition scan_init : scan_state :=
  ScanState ∅ [] None false.

(** The last statement of the loop body:
    [if not skip_until_next: filtered_lines.append(line)]. *)
Definition append_unless_skipping (st : scan_state) (line : text)
  : scan_state :=
  if skip_until_next st then st
  else ScanState (seen_conversations st) (filtered_lines st ++ [line])
                 (current_conversation st) false.

Section Scan.
Context (ucd : unicode_data).

(** One iteration of [for line in lines]. *)
Definition loop_body (st : scan_state) (line : text) : scan_state :=
  match chat_match ucd line with
  | Some (conv_id, date, title) =>
      let key := conversation_key conv_id date in
      if bool_decide (key ∈ seen_conversations st) then
        (* skip_until_next = True; continue *)
        ScanState (seen_conversations st) (filtered_lines st)
                  (current_conversation st) true
      else
        append_unless_skipping
          (ScanState (seen_conversations st ∪ {[ key ]})
                     (filtered_lines st) (Some key) false)
          line
  | None =>
      if skip_until_next st && startswith section_marker line then
        append_unless_skipping
          (ScanState (seen_conversations st) (filtered_lines st)
                     (current_conversation st) false)
          line
      else append_unless_skipping st line
  end.

Definition scan_from (st : scan_state) (lines : list text) : scan_state :=
  foldl loop_body st lines.

Definition scan (lines : list text) : scan_state :=
  scan_from scan_init lines.

(** The filtered document. *)
Definition dedupe (lines : list text) : list text :=
  filtered_lines (scan lines).

End Scan.

(** ** Files, failures and the whole of [dedupe_conversation_log] *)

Inductive exn := OSError | ZeroDivisionError.

Inductive result (A : Type) :=
  | Ok (a : A)
  | Raise (e : exn).
Arguments Ok {A} a.
Arguments Raise {A} e.

(** What the operating system decides during one run: whether the rename
    and the write fail, and what a failed write leaves at its path
    ([None]: the file could not even be opened). *)
Record faults := Faults {
  rename_fails : bool;
  write_fails : bool;
  write_residue : option (list N)
}.

Definition no_faults : faults := Faults false false None.

Inductive fs_event :=
  | EvRename (src dst : string) (ok : bool)
  | EvWrite (path : string) (data : list N) (ok : bool).

(** The files by path, as decoded text, and the journal of the mutating
    calls made so far. *)
Record world := World {
  files : gmap string (list N);
  journal : list fs_event
}.

(** [Path.rename]: moves the file; a failure leaves every file as it was. *)
Definition rename (flt : faults) (src dst : string) (w : world)
  : result unit * world :=
  match files w !! src with
  | Some data =>
      if rename_fails flt then
        (Raise OSError, World (files w) (journal w ++ [EvRename src dst false]))
      else
        (Ok (), World (<[dst := data]> (delete src (files w)))
                      (journal w ++ [EvRename src dst true]))
  | None =>
      (Raise OSError, World (files w) (journal w ++ [EvRename src dst false]))
  end.

(** [Path.write_text] *)
Definition write_text (flt : faults) (path : string) (data : text) (w : world)
  : result unit * world :=
  if write_fails flt then
    (Raise OSError,
     World (match write_residue flt with
            | Some partial => <[path := partial]> (files w)
            | None => files w
            end)
           (journal w ++ [EvWrite path data false]))
  else
    (Ok (), World (<[path := data]> (files w))
                  (journal w ++ [EvWrite path data true])).

(** The four numbers of the closing statistics; the last one is also the
    function's return value. *)
Record statistics := Statistics {
  original_lines : Z;
  final_lines : Z;
  removed_lines : Z;
  conversations_found : Z
}.

Definition log_file : string := ".ai/conversation-log.md".

(** [log_file.with_suffix('.md.backup')] *)
Definition backup_file : string := ".ai/conversation-log.md.backup".

(** [None] is the early [return] when the log does not exist. *)
Definition dedupe_conversation_log (ucd : unicode_data) (flt : faults)
    (w : world) : result (option statistics) * world :=
  match files w !! log_file with
  | None => (Ok None, w)
  | Some content =>
      let lines := split_lines content in
      let st := scan ucd lines in
      let dedupe_content := join_lines (filtered_lines st) in
      match rename flt log_file backup_file w with
      | (Raise e, w) => (Raise e, w)
      | (Ok _, w) =>
          match write_text flt log_file dedupe_content w with
          | (Raise e, w) => (Raise e, w)
          | (Ok _, w) =>
              let original := Z.of_nat (length lines) in
              let final := Z.of_nat (length (filtered_lines st)) in
              (Ok (Some (Statistics original final (original - final)%Z
                           (Z.of_nat (size (seen_conversations st))))), w)
          end
      end
  end.

(** The text transformation between reading and writing the log. *)
Definition dedupe_text (ucd : unicode_data) (content : text) : text :=
  join_lines (dedupe ucd (split_lines content)).

(** ** The analyzer: [count_tokens], [analyze_file], [main] *)

(** [re.sub(cls+, repl, s)]: every maximal run of [cls] becomes [repl].
    [in_run] tells whether the previous character belonged to a run. *)
Fixpoint re_sub_runs (cls : N → bool) (repl : text) (in_run : bool) (s : text)
  : text :=
  match s with
  | [] => []
  | c :: s' =>
      if cls c then
        (if in_run then [] else repl) ++ re_sub_runs cls repl true s'
      else c :: re_sub_runs cls repl false s'
  end.

(** [re.split(cls+, s)]: the pieces between the maximal runs of [cls],
    empty pieces at either end included. *)
Fixpoint re_split_runs (cls : N → bool) (in_run : bool) (s : text)
  : list text :=
  match s with
  | [] => [[]]
  | c :: s' =>
      if cls c then
        if in_run then re_split_runs cls true s'
        else [] :: re_split_runs cls true s'
      else
        match re_split_runs cls false s' with
        | piece :: pieces => (c :: piece) :: pieces
        | [] => [[c]]
        end
  end.

Definition underscore : N := 95.
Definition space : N := 32.
Definition at_sign : N := 64.

(** A non-empty string is true. *)
Definition truthy (s : text) : bool :=
  match s with [] => false | _ :: _ => true end.

(** [[A-Z_]] *)
Definition is_upper_or_underscore (c : N) : bool :=
  in_range 65 90 c || (c =? underscore).

(** [len(re.findall(r'@[A-Z_]+', content))].  A match is an [@] directly
    followed by a character of the class; the characters it goes on to
    consume are none of them an [@], so the search for the next match may
    as well resume right after the [@]. *)
Fixpoint count_semantic_blocks (content : text) : nat :=
  match content with
  | [] => 0
  | c :: rest =>
      let matches_here :=
        (c =? at_sign) &&
        match rest with
        | c' :: _ => is_upper_or_underscore c'
        | [] => false
        end in
      ((if matches_here then 1 else 0) + count_semantic_blocks rest)%nat
  end.

(** [len(content.encode('utf-8'))] *)
Definition utf8_width (c : N) : Z :=
  if c <? 128 then 1 else if c <? 2048 then 2
  else if c <? 65536 then 3 else 4.

Definition utf8_size (content : text) : Z :=
  foldr (λ c n, (utf8_width c + n)%Z) 0%Z content.

(** [a / b] on integers: the exact quotient stands for the float. *)
Definition true_div (a b : Z) : result Q :=
  if (b =? 0)%Z then Raise ZeroDivisionError
  else Ok (inject_Z a / inject_Z b)%Q.

Record analysis := Analysis {
  a_path : string;
  a_lines : Z;
  a_tokens : Z;
  a_size : Z;
  a_compression_ratio : Q;
  a_semantic_blocks : Z
}.

Record overall := Overall {
  o_total_tokens : Z;
  o_total_kb : Q;
  o_total_blocks : Z;
  o_average_compression : Q;
  o_storage_efficiency : Q;
  o_compression_saved : Q;
  o_above_90 : bool
}.

Definition aicf_files : list string :=
  ["index.aicf"; "conversations.aicf"; "decisions.aicf";
   "work-state.aicf"; "technical-context.aicf"]%string.

(** [os.path.join('./.aicf', file)] *)
Definition aicf_path (file : string) : string :=
  String.append "./.aicf/" file.

Section Analyzer.
Context (ucd : unicode_data).

(** [\w] *)
Definition is_word (c : N) : bool := isalnum ucd c || (c =? underscore).

(** [[\s\W]] *)
Definition is_separator (c : N) : bool := isspace ucd c || negb (is_word c).

Definition count_tokens (s : text) : nat :=
  let s := re_sub_runs (isspace ucd) [space] false s in
  length (filter (λ word, truthy word = true)
                 (re_split_runs is_separator false s)).

(** [line.strip()] is non-empty when some character is not white space. *)
Definition strip_truthy (line : text) : bool :=
  existsb (λ c, negb (isspace ucd c)) line.

Definition analyze_file (fs : gmap string (list N)) (file : string)
  : option analysis :=
  match fs !! aicf_path file with
  | None => None
  | Some content =>
      let lines := filter (λ l, strip_truthy l = true) (split_lines content) in
      let tokens := Z.of_nat (count_tokens content) in
      let size := utf8_size content in
      Some (Analysis file (Z.of_nat (length lines)) tokens size
              (if (0 <? size)%Z then (inject_Z tokens / inject_Z size)%Q
               else 0%Q)
              (Z.of_nat (count_semantic_blocks content)))
  end.

(** The [for file in files] loop of [main]: the analyses printed and the
    three running totals. *)
Definition main_totals (fs : gmap string (list N))
  : list analysis * (Z * Z * Z) :=
  foldl (λ '(shown, (total_tokens, total_size, total_blocks)) file,
           match analyze_file fs file with
           | Some a =>
               (shown ++ [a],
                ((total_tokens + a_tokens a)%Z,
                 (total_size + a_size a)%Z,
                 (total_blocks + a_semantic_blocks a)%Z))
           | None => (shown, (total_tokens, total_size, total_blocks))
           end)
        ([], (0, 0, 0)%Z) aicf_files.

(** The divisors of the overall-statistics branch, in the order in which
    the branch evaluates its divisions. *)
Definition overall_divisors (total_tokens total_size : Z) : list Z :=
  [1024; total_size; total_size; total_tokens * 15]%Z.

(** The overall-statistics branch, [if total_size > 0:]. *)
Definition overall_statistics (total_tokens total_size total_blocks : Z)
  : result overall :=
  match true_div total_size 1024 with
  | Raise e => Raise e
  | Ok kb =>
  match true_div total_tokens total_size with
  | Raise e => Raise e
  | Ok average =>
  match true_div total_blocks total_size with
  | Raise e => Raise e
  | Ok blocks_per_byte =>
  let estimated_json_size := (total_tokens * 15)%Z in
  match true_div (estimated_json_size - total_size) estimated_json_size with
  | Raise e => Raise e
  | Ok saved =>
  let compression_saved := (saved * 100)%Q in
  Ok (Overall total_tokens kb total_blocks average
        (blocks_per_byte * 1000)%Q compression_saved
        (negb (Qle_bool compression_saved 90)))
  end end end end.

(** [main]: the per-file analyses, then the overall statistics if any
    bytes were read ([None]: "No valid files found"). *)
Definition main (fs : gmap string (list N))
  : result (list analysis * option overall) :=
  let '(shown, (total_tokens, total_size, total_blocks)) := main_totals fs in
  if (0 <? total_size)%Z then
    match overall_statistics total_tokens total_size total_blocks with
    | Ok o => Ok (shown, Some o)
    | Raise e => Raise e
    end
  else Ok (shown, None).

End Analyzer.

(** ** What the specification says [count_tokens] computes *)

(** The number of maximal runs of [cls] characters; [in_run] tells whether
    the previous character was one. *)
Fixpoint count_maximal_runs (cls : N → bool) (in_run : bool) (s : text) : nat :=
  match s with
  | [] => 0
  | c :: s' =>
      if cls c then
        (if in_run then 0 else 1)%nat + count_maximal_runs cls true s'
      else count_maximal_runs cls false s'
  end.

(** [[A-Za-z0-9_]] *)
Definition is_ascii_word (c : N) : bool :=
  in_range 65 90 c || in_range 97 122 c || in_range 48 57 c
  || (c =? underscore).

(** ** Vocabulary of the specification *)

(** The identity [(id, date)] a line carries when it is an entry header. *)
Definition line_identity (ucd : unicode_data) (line : text)
  : option (text * text) :=
  (λ '(conv_id, date, _), (conv_id, date)) <$> chat_match ucd line.

(** The same identity as the string the script stores in its set. *)
Definition line_key (ucd : unicode_data) (line : text) : option text :=
  (λ '(conv_id, date, _), conversation_key conv_id date) <$> chat_match ucd line.

Definition keys_of (ucd : unicode_data) (lines : list text) : list text :=
  omap (line_key ucd) lines.

(** An entry header whose identity already occurred among [before]. *)
Definition duplicate_header (ucd : unicode_data) (before : list text)
    (line : text) : Prop :=
  ∃ key, line_key ucd line = Some key ∧ key ∈ keys_of ucd before.

(** The line [line] that follows [pre] lies in a skip span: it is a
    duplicate header, or comes after one with no section start in between,
    and nothing of that run, from the duplicate header to [line], reaches
    the output. *)
Definition in_skip_span (ucd : unicode_data) (pre : list text) (line : text)
  : Prop :=
  ∃ before header body,
    pre ++ [line] = before ++ header :: body
    ∧ duplicate_header ucd before header
    ∧ Forall (λ l, startswith section_marker l = false) body
    ∧ dedupe ucd (before ++ header :: body) = dedupe ucd before.

(** The overview's account of a duplicate entry: when the scan has read
    [pre] and the key of the header [header] is in the seen set, that
    header and the lines [body] after it, none of which is a header, add
    nothing to the filtered lines. *)
Definition removed_up_to_next_header (ucd : unicode_data)
    (pre : list text) (header : text) (body : list text) : Prop :=
  ∀ i d t,
    chat_match ucd header = Some (i, d, t) →
    conversation_key i d ∈ seen_conversations (scan ucd pre) →
    Forall (λ l, chat_match ucd l = None) body →
    dedupe ucd (pre ++ header :: body) = dedupe ucd pre.

(** What the scan maintains about the headers it has let through: their
    keys are pairwise different and all recorded in the set. *)
Definition keys_tracked (ucd : unicode_data) (st : scan_state) : Prop :=
  NoDup (keys_of ucd (filtered_lines st))
  ∧ ∀ key, key ∈ keys_of ucd (filtered_lines st) → key ∈ seen_conversations st.

(** The header pattern read as a description of lines, with no reference
    to how a matcher searches: the marker, a non-empty hexadecimal
    identifier, a separator, a date of four, two and two digits joined by
    dashes, a separator, a non-empty title free of line feeds, and
    possibly one final line feed. *)
Definition header_shape (ucd : unicode_data)
    (line conv_id date title : text) : Prop :=
  ∃ yyyy mm dd ending,
    line = chat_marker ++ conv_id ++ separator ++ date ++ separator
           ++ title ++ ending
    ∧ conv_id ≠ [] ∧ Forall (λ c, is_hex c = true) conv_id
    ∧ date = yyyy ++ dash ++ mm ++ dash ++ dd
    ∧ length yyyy = 4%nat ∧ length mm = 2%nat ∧ length dd = 2%nat
    ∧ Forall (λ c, isdecimal ucd c = true) yyyy
    ∧ Forall (λ c, isdecimal ucd c = true) mm
    ∧ Forall (λ c, isdecimal ucd c = true) dd
    ∧ title ≠ [] ∧ Forall (λ c, not_newline c = true) title
    ∧ (ending = [] ∨ ending = [newline]).

(** The first character of [s], if any, is outside [cls]. *)
Definition stops_at (cls : N → bool) (s : text) : Prop :=
  match s with
  | [] => True
  | c :: _ => cls c = false
  end.

(** ** Sample documents *)

Definition first_abc : text := str "## Chat abc123 - 2024-01-01 - First".
Definition again_abc : text := str "## Chat abc123 - 2024-01-01 - Again".
Definition other_def : text := str "## Chat def456 - 2024-01-02 - Other".
Definition notes_section : text := str "## Notes".
Definition malformed_header : text := str "## Chat XYZ - 2024-01-01 - Bad id".

(** Two entries with one identity and different titles, then a third. *)
Definition doc_A : list text :=
  [first_abc; str "body one"; again_abc; str "body two";
   other_def; str "body three"].

(** A duplicate whose body runs into a section that is no entry. *)
Definition doc_before_duplicate : list text := [first_abc; str "body one"].

Definition body_with_section : list text :=
  [str "body two"; notes_section; str "body three"].

(** ** Sample file systems *)

(** The log exists and is empty. *)
Definition empty_log_world : world := World {[ log_file := [] ]} [].

(** The log holds scenario A. *)
Definition log_A_world : world :=
  World {[ log_file := join_lines doc_A ]} [].

(** Only [index.aicf] exists, and it holds no word character. *)
Definition punctuation_only_fs : gmap string (list N) :=
  {[ aicf_path "index.aicf" := str "---" ]}.

(** ** Sample texts *)

(** The single letter e with an acute accent, U+00E9. *)
Definition e_acute : text := [233].

Definition hello_world : text := str "Hello,  world_1 !".

(** The identities of the header lines of a document, in order. *)
Definition identities (ucd : unicode_data) (lines : list text)
  : list (text * text) :=
  omap (line_identity ucd) lines.

(** Every key in the seen set belongs to a header that was let through. *)
Definition keys_complete (ucd : unicode_data) (st : scan_state) : Prop :=
  ∀ key, key ∈ seen_conversations st → key ∈ keys_of ucd (filtered_lines st).

(** The sum of one field over the analyses shown. *)
Definition sum_of (field : analysis → Z) (shown : list analysis) : Z :=
  foldr (λ a n, (field a + n)%Z) 0%Z shown.

(** The analyses [main] prints: one for each listed file that exists. *)
Definition analyses (ucd : unicode_data) (fs : gmap string (list N))
  : list analysis :=
  omap (analyze_file ucd fs) aicf_files.

(** [re.findall(r'@[A-Z_]+', content)] itself: the matches from left to
    right, each as long as it can be, the search resuming where a match
    ends.  [current] is the match being extended, if any. *)
Fixpoint findall_blocks (current : option text) (content : text)
  : list text :=
  match content with
  | [] => match current with Some m => [m] | None => [] end
  | c :: rest =>
      let resume :=
        if (c =? at_sign) &&
           match rest with
           | c' :: _ => is_upper_or_underscore c'
           | [] => false
           end
        then findall_blocks (Some [c]) rest
        else findall_blocks None rest in
      match current with
      | Some m =>
          if is_upper_or_underscore c
          then findall_blocks (Some (m ++ [c])) rest
          else m :: resume
      | None => resume
      end
  end.

(** Body treatment, as the edge-case policy words it for a line that
    fails to parse: the line takes no part in deduplication, it is passed
    through when the scan is not skipping, and when the scan is skipping
    it is dropped like the body lines around it and the skip goes on. *)
Definition handled_as_body_line (ucd : unicode_data) (st : scan_state)
    (line : text) : Prop :=
  chat_match ucd line = None →
  seen_conversations (loop_body ucd st line) = seen_conversations st
  ∧ (skip_until_next st = false →
     filtered_lines (loop_body ucd st line) = filtered_lines st ++ [line])
  ∧ (skip_until_next st = true →
     filtered_lines (loop_body ucd st line) = filtered_lines st
     ∧ skip_until_next (loop_body ucd st line) = true).

(** A duplicate entry whose body meets a header with a malformed id. *)
Definition doc_malformed_in_duplicate : list text :=
  [first_abc; again_abc; malformed_header; str "body two"].

(** * Properties *)

(** ** Literals and the header pattern *)

Lemma match_literal_Some (p s r : text) :
  match_literal p s = Some r ↔ s = p ++ r.
Proof.
  revert s. induction p as [|a p IH]; intros s; simpl.
  - split; intros; congruence.
  - destruct s as [|b s]; [split; intros; discriminate|].
    destruct (N.eqb_spec a b) as [->|Hne].
    + rewrite IH. split; intros; congruence.
    + split; intros; [discriminate | congruence].
Qed.

Lemma startswith_prefix (p s : text) :
  startswith p s = true ↔ ∃ r, s = p ++ r.
Proof.
  unfold startswith. rewrite bool_decide_eq_true. unfold is_Some.
  by setoid_rewrite match_literal_Some.
Qed.

Lemma chat_match_startswith (ucd : unicode_data) (line : text) :
  is_Some (chat_match ucd line) → startswith section_marker line = true.
Proof.
  intros [groups Hm]. unfold chat_match in Hm.
  destruct (match_literal chat_marker line) as [s|] eqn:Hlit;
    [|discriminate].
  apply match_literal_Some in Hlit. apply startswith_prefix.
  exists (str "Chat " ++ s). by rewrite Hlit.
Qed.

Lemma match_count_length (cls : N → bool) (n : nat) (s run rest : text) :
  match_count cls n s = Some (run, rest) → length run = n ∧ s = run ++ rest.
Proof.
  revert s run rest. induction n as [|n IH]; intros s run rest; simpl.
  - intros [= <- <-]. done.
  - destruct s as [|c s]; [done|]. destruct (cls c); [|done].
    destruct (match_count cls n s) as [[run' rest']|] eqn:Hrec; [|done].
    simpl. intros [= <- <-]. destruct (IH _ _ _ Hrec) as [<- ->]. done.
Qed.

Lemma match_date_length (ucd : unicode_data) (s date rest : text) :
  match_date ucd s = Some (date, rest) → length date = 10%nat.
Proof.
  unfold match_date. intros Hm.
  apply bind_Some in Hm as ([yyyy s1] & H1 & Hm).
  apply bind_Some in Hm as (s2 & _ & Hm).
  apply bind_Some in Hm as ([mm s3] & H2 & Hm).
  apply bind_Some in Hm as (s4 & _ & Hm).
  apply bind_Some in Hm as ([dd s5] & H3 & Hm).
  injection Hm as <- <-.
  apply match_count_length in H1 as [H1 _], H2 as [H2 _], H3 as [H3 _].
  cbn. rewrite !length_app. cbn. rewrite !length_app. cbn. lia.
Qed.

Lemma chat_match_date_length (ucd : unicode_data) (line i d t : text) :
  chat_match ucd line = Some (i, d, t) → length d = 10%nat.
Proof.
  unfold chat_match. intros Hm.
  apply bind_Some in Hm as (s & _ & Hm).
  destruct (span is_hex s) as [conv_id s1].
  case_bool_decide; [done|].
  apply bind_Some in Hm as (s2 & _ & Hm).
  apply bind_Some in Hm as ([date s3] & Hd & Hm).
  apply bind_Some in Hm as (s4 & _ & Hm).
  apply bind_Some in Hm as (title & _ & Hm).
  injection Hm as <- <- <-. eauto using match_date_length.
Qed.

Lemma span_app (cls : N → bool) (run rest : text) :
  Forall (λ c, cls c = true) run → stops_at cls rest →
  span cls (run ++ rest) = (run, rest).
Proof.
  intros Hall Hrest. induction Hall as [|c run Hc _ IH]; simpl.
  - destruct rest as [|r rest]; simpl in *; [done | by rewrite Hrest].
  - by rewrite Hc, IH.
Qed.

Lemma span_spec (cls : N → bool) (s run rest : text) :
  span cls s = (run, rest) ↔
  s = run ++ rest ∧ Forall (λ c, cls c = true) run ∧ stops_at cls rest.
Proof.
  split; [|intros (-> & Hall & Hrest); by apply span_app].
  revert run rest. induction s as [|c s IH]; intros run rest; simpl.
  - intros [= <- <-]. by repeat split.
  - destruct (cls c) eqn:Hc.
    + destruct (span cls s) as [run' rest'].
      destruct (IH run' rest' eq_refl) as (-> & Hrun & Hstop).
      intros [= <- <-]. split_and!; [done|by constructor|done].
    + intros [= <- <-]. split_and!; [done|constructor|done].
Qed.

Lemma match_count_spec (cls : N → bool) (n : nat) (s run rest : text) :
  match_count cls n s = Some (run, rest) ↔
  s = run ++ rest ∧ length run = n ∧ Forall (λ c, cls c = true) run.
Proof.
  revert s run. induction n as [|n IH]; intros s run; simpl.
  - split.
    + intros [= <- <-]. by repeat split.
    + intros (-> & Hlen & _). by destruct run.
  - destruct s as [|c s].
    + split; [done|]. intros (Hs & Hlen & _). by destruct run.
    + destruct (cls c) eqn:Hc.
      * split.
        -- intros ([run' rest'] & Hrec & [= <- <-])%bind_Some.
           apply IH in Hrec as (-> & <- & Hall).
           split_and!; [done|done|by constructor].
        -- intros (Hs & Hlen & Hall). destruct run as [|c' run]; [done|].
           simpl in Hs, Hlen. injection Hs as <- ->. injection Hlen as <-.
           apply Forall_cons in Hall as [_ Hall].
           apply bind_Some. exists (run, rest). split; [|done].
           apply IH. done.
      * split; [done|]. intros (Hs & Hlen & Hall).
        destruct run as [|c' run]; [done|].
        simpl in Hs. injection Hs as <- _.
        apply Forall_cons in Hall as [Hc' _]. congruence.
Qed.

Lemma match_count_app (cls : N → bool) (run rest : text) :
  Forall (λ c, cls c = true) run →
  match_count cls (length run) (run ++ rest) = Some (run, rest).
Proof. intros Hall. by apply match_count_spec. Qed.

Lemma match_literal_app_eq (lit rest : text) :
  match_literal lit (lit ++ rest) = Some rest.
Proof. by apply match_literal_Some. Qed.

Lemma match_date_spec (ucd : unicode_data) (s date rest : text) :
  match_date ucd s = Some (date, rest) ↔
  ∃ yyyy mm dd,
    s = date ++ rest
    ∧ date = yyyy ++ dash ++ mm ++ dash ++ dd
    ∧ length yyyy = 4%nat ∧ length mm = 2%nat ∧ length dd = 2%nat
    ∧ Forall (λ c, isdecimal ucd c = true) yyyy
    ∧ Forall (λ c, isdecimal ucd c = true) mm
    ∧ Forall (λ c, isdecimal ucd c = true) dd.
Proof.
  unfold match_date. split.
  - intros Hm.
    apply bind_Some in Hm as ([yyyy s1] & H1 & Hm).
    apply bind_Some in Hm as (s2 & L1 & Hm).
    apply bind_Some in Hm as ([mm s3] & H2 & Hm).
    apply bind_Some in Hm as (s4 & L2 & Hm).
    apply bind_Some in Hm as ([dd s5] & H3 & Hm).
    injection Hm as <- <-.
    apply match_count_spec in H1 as (-> & ? & ?).
    apply match_count_spec in H2 as (-> & ? & ?).
    apply match_count_spec in H3 as (-> & ? & ?).
    apply match_literal_Some in L1 as ->.
    apply match_literal_Some in L2 as ->.
    exists yyyy, mm, dd. split_and!; try done.
    cbn. rewrite <-!app_assoc. cbn. by rewrite <-!app_assoc.
  - intros (yyyy & mm & dd & -> & -> & Hy & Hm & Hd & Ay & Am & Ad).
    rewrite <-!app_assoc.
    rewrite <-Hy, match_count_app by done. cbn [mbind option_bind].
    rewrite match_literal_app_eq. cbn [mbind option_bind].
    rewrite <-Hm, match_count_app by done. cbn [mbind option_bind].
    rewrite match_literal_app_eq. cbn [mbind option_bind].
    rewrite Hm, <-Hd, match_count_app by done. done.
Qed.

Lemma match_title_spec (s title : text) :
  match_title s = Some title ↔
  ∃ ending,
    s = title ++ ending
    ∧ title ≠ [] ∧ Forall (λ c, not_newline c = true) title
    ∧ (ending = [] ∨ ending = [newline]).
Proof.
  unfold match_title. split.
  - destruct (span not_newline s) as [run rest] eqn:Hspan.
    apply span_spec in Hspan as (-> & Hrun & _).
    destruct run as [|c run]; [done|].
    destruct rest as [|r [|r' rest]]; [| |done].
    + intros [= <-]. exists []. split_and!; [done|done|done|by left].
    + destruct (N.eqb_spec r newline) as [->|_]; [|done].
      intros [= <-]. exists [newline]. split_and!; [done|done|done|by right].
  - intros (ending & -> & Hne & Hall & Hend).
    rewrite span_app; [| done |].
    + destruct title as [|c title]; [done|].
      destruct Hend as [->| ->]; done.
    + destruct Hend as [->| ->]; done.
Qed.

(** The matcher returns exactly the decompositions the pattern describes;
    in particular a line has at most one. *)
Lemma chat_match_spec (ucd : unicode_data) (line conv_id date title : text) :
  chat_match ucd line = Some (conv_id, date, title) ↔
  header_shape ucd line conv_id date title.
Proof.
  unfold chat_match, header_shape. split.
  - intros Hm.
    apply bind_Some in Hm as (s & L0 & Hm).
    destruct (span is_hex s) as [run s1] eqn:Hspan.
    case_bool_decide as Hrun; [done|].
    apply bind_Some in Hm as (s2 & L1 & Hm).
    apply bind_Some in Hm as ([date' s3] & Hd & Hm).
    apply bind_Some in Hm as (s4 & L2 & Hm).
    apply bind_Some in Hm as (title' & Ht & Hm).
    injection Hm as <- <- <-.
    apply match_literal_Some in L0 as ->.
    apply span_spec in Hspan as (-> & Hhex & _).
    apply match_literal_Some in L1 as ->.
    apply match_date_spec in Hd
      as (yyyy & mm & dd & -> & ? & ? & ? & ? & ? & ? & ?).
    apply match_literal_Some in L2 as ->.
    apply match_title_spec in Ht as (ending & -> & ? & ? & ?).
    exists yyyy, mm, dd, ending. split_and!; done.
  - intros (yyyy & mm & dd & ending & -> & Hne & Hhex & Hdate & Hy & Hm & Hd
            & Ay & Am & Ad & Ht & Hnl & Hend).
    rewrite match_literal_app_eq. cbn [mbind option_bind].
    rewrite span_app; [|done|done].
    rewrite bool_decide_eq_false_2 by done.
    rewrite match_literal_app_eq. cbn [mbind option_bind].
    assert (match_date ucd (date ++ separator ++ title ++ ending)
            = Some (date, separator ++ title ++ ending)) as ->.
    { apply match_date_spec. exists yyyy, mm, dd. split_and!; done. }
    cbn [mbind option_bind].
    rewrite match_literal_app_eq. cbn [mbind option_bind].
    assert (match_title (title ++ ending) = Some title) as ->.
    { apply match_title_spec. by exists ending. }
    done.
Qed.

(** The key string determines the pair it was built from, as long as the
    dates have the same length. *)
Lemma conversation_key_inj (i1 d1 i2 d2 : text) :
  length d1 = length d2 →
  conversation_key i1 d1 = conversation_key i2 d2 → i1 = i2 ∧ d1 = d2.
Proof.
  unfold conversation_key. intros Hlen Heq.
  rewrite !app_assoc in Heq.
  apply app_inj_2 in Heq as [Hi Hd]; [|done].
  apply app_inj_2 in Hi as [Hi _]; done.
Qed.

(** ** One iteration of the loop *)

Section ScanFacts.
Context (ucd : unicode_data).
Implicit Types (st : scan_state) (line key : text) (lines : list text).

Lemma line_key_Some line key :
  line_key ucd line = Some key ↔
  ∃ i d t, chat_match ucd line = Some (i, d, t) ∧ key = conversation_key i d.
Proof.
  unfold line_key. destruct (chat_match ucd line) as [[[i d] t]|]; simpl.
  - split; [intros [= <-]; eauto | intros (?&?&?&[= <- <- <-]&->); done].
  - split; [done | intros (?&?&?&?&?); done].
Qed.

Lemma line_key_None line :
  line_key ucd line = None ↔ chat_match ucd line = None.
Proof.
  unfold line_key. destruct (chat_match ucd line) as [[[i d] t]|]; done.
Qed.

Lemma loop_body_duplicate st line i d t :
  chat_match ucd line = Some (i, d, t) →
  conversation_key i d ∈ seen_conversations st →
  loop_body ucd st line =
    ScanState (seen_conversations st) (filtered_lines st)
              (current_conversation st) true.
Proof.
  intros Hm Hin. unfold loop_body. rewrite Hm.
  by rewrite bool_decide_eq_true_2.
Qed.

Lemma loop_body_first st line i d t :
  chat_match ucd line = Some (i, d, t) →
  conversation_key i d ∉ seen_conversations st →
  loop_body ucd st line =
    ScanState (seen_conversations st ∪ {[ conversation_key i d ]})
              (filtered_lines st ++ [line])
              (Some (conversation_key i d)) false.
Proof.
  intros Hm Hin. unfold loop_body. rewrite Hm.
  by rewrite bool_decide_eq_false_2.
Qed.

Lemma loop_body_not_header st line :
  chat_match ucd line = None →
  loop_body ucd st line =
    if skip_until_next st && negb (startswith section_marker line) then st
    else ScanState (seen_conversations st) (filtered_lines st ++ [line])
                   (current_conversation st) false.
Proof.
  intros Hm. unfold loop_body, append_unless_skipping. rewrite Hm.
  destruct st as [seen out cur [|]], (startswith section_marker line); done.
Qed.

(** Every iteration either appends its line and leaves the skip flag
    down, or appends nothing and leaves it up. *)
Lemma loop_body_emits st line :
  (filtered_lines (loop_body ucd st line) = filtered_lines st ++ [line]
   ∧ skip_until_next (loop_body ucd st line) = false)
  ∨ (filtered_lines (loop_body ucd st line) = filtered_lines st
     ∧ skip_until_next (loop_body ucd st line) = true).
Proof.
  destruct (chat_match ucd line) as [[[i d] t]|] eqn:Hm.
  - destruct (decide (conversation_key i d ∈ seen_conversations st)).
    + right. by erewrite loop_body_duplicate.
    + left. by erewrite loop_body_first.
  - rewrite loop_body_not_header by done.
    destruct (skip_until_next st) eqn:Hs, (startswith section_marker line);
      simpl; auto.
Qed.

Lemma loop_body_seen st line key :
  key ∈ seen_conversations (loop_body ucd st line) ↔
  key ∈ seen_conversations st ∨ line_key ucd line = Some key.
Proof.
  destruct (chat_match ucd line) as [[[i d] t]|] eqn:Hm.
  - assert (line_key ucd line = Some (conversation_key i d)) as ->
      by (unfold line_key; by rewrite Hm).
    destruct (decide (conversation_key i d ∈ seen_conversations st)).
    + erewrite loop_body_duplicate by done. simpl. naive_solver.
    + erewrite loop_body_first by done. simpl. set_solver.
  - assert (line_key ucd line = None) as -> by by apply line_key_None.
    rewrite loop_body_not_header by done.
    destruct (skip_until_next st && _); simpl; naive_solver.
Qed.

(** ** The whole scan *)

Lemma scan_from_app st lines1 lines2 :
  scan_from ucd st (lines1 ++ lines2) =
  scan_from ucd (scan_from ucd st lines1) lines2.
Proof. apply foldl_app. Qed.

Lemma scan_snoc lines line :
  scan ucd (lines ++ [line]) = loop_body ucd (scan ucd lines) line.
Proof. unfold scan. by rewrite scan_from_app. Qed.

Lemma scan_from_filtered st lines :
  ∃ out, filtered_lines (scan_from ucd st lines) = filtered_lines st ++ out
         ∧ out `sublist_of` lines.
Proof.
  revert st. induction lines as [|line lines IH]; intros st; simpl.
  - exists []. by rewrite app_nil_r.
  - destruct (IH (loop_body ucd st line)) as (out & -> & Hsub).
    destruct (loop_body_emits st line) as [[-> _]|[-> _]].
    + exists (line :: out). rewrite <-app_assoc. split; [done|].
      by apply sublist_skip.
    + exists out. split; [done|]. by apply sublist_cons.
Qed.

Lemma scan_from_seen st lines key :
  key ∈ seen_conversations (scan_from ucd st lines) ↔
  key ∈ seen_conversations st ∨ key ∈ keys_of ucd lines.
Proof.
  revert st. induction lines as [|line lines IH]; intros st; simpl.
  - unfold keys_of. simpl. set_solver.
  - rewrite IH, loop_body_seen. unfold keys_of. simpl.
    destruct (line_key ucd line) as [k|]; simpl; set_solver.
Qed.

Lemma scan_seen lines key :
  key ∈ seen_conversations (scan ucd lines) ↔ key ∈ keys_of ucd lines.
Proof. unfold scan. rewrite scan_from_seen. simpl. set_solver. Qed.

End ScanFacts.

(** ** Invariants of the scan *)

Section ScanInvariants.
Context (ucd : unicode_data).
Implicit Types (st : scan_state) (line key : text) (lines : list text).

Lemma keys_of_app lines1 lines2 :
  keys_of ucd (lines1 ++ lines2) = keys_of ucd lines1 ++ keys_of ucd lines2.
Proof. apply omap_app. Qed.

Lemma keys_of_identities lines :
  keys_of ucd lines =
  (λ p, conversation_key p.1 p.2) <$> omap (line_identity ucd) lines.
Proof.
  induction lines as [|line lines IH]; [done|].
  unfold keys_of in *. cbn [omap list_omap]. rewrite IH.
  unfold line_key, line_identity.
  destruct (chat_match ucd line) as [[[i d] t]|]; done.
Qed.

Lemma loop_body_keys_tracked st line :
  keys_tracked ucd st → keys_tracked ucd (loop_body ucd st line).
Proof.
  intros [Hnd Hsub].
  destruct (chat_match ucd line) as [[[i d] t]|] eqn:Hm.
  - destruct (decide (conversation_key i d ∈ seen_conversations st)) as [|Hnew].
    + erewrite loop_body_duplicate by done. by split.
    + erewrite loop_body_first by done. unfold keys_tracked. simpl.
      rewrite keys_of_app.
      assert (keys_of ucd [line] = [conversation_key i d]) as ->
        by (unfold keys_of, line_key; simpl; by rewrite Hm).
      split.
      * apply NoDup_app. split_and!; [done| |apply NoDup_singleton].
        intros x Hx ->%list_elem_of_singleton. by apply Hnew, Hsub.
      * intros key [?| ->%list_elem_of_singleton]%elem_of_app; set_solver.
  - rewrite loop_body_not_header by done.
    destruct (_ && _); [by split|]. unfold keys_tracked. simpl.
    rewrite keys_of_app.
    assert (keys_of ucd [line] = []) as ->
      by (unfold keys_of, line_key; simpl; by rewrite Hm).
    by rewrite app_nil_r.
Qed.

Lemma scan_from_keys_tracked st lines :
  keys_tracked ucd st → keys_tracked ucd (scan_from ucd st lines).
Proof.
  revert st. induction lines as [|line lines IH]; intros st Hst; [done|].
  simpl. by apply IH, loop_body_keys_tracked.
Qed.

Lemma scan_keys_tracked lines : keys_tracked ucd (scan ucd lines).
Proof.
  apply scan_from_keys_tracked. split; simpl; [constructor|].
  unfold keys_of. simpl. intros key Hin. by apply not_elem_of_nil in Hin.
Qed.

(** Lines that follow a duplicate header and start no section all vanish,
    and the state does not move. *)
Lemma scan_from_skipped st body :
  skip_until_next st = true →
  Forall (λ l, startswith section_marker l = false) body →
  scan_from ucd st body = st.
Proof.
  intros Hskip. induction 1 as [|line body Hline _ IH]; [done|]. simpl.
  assert (chat_match ucd line = None) as Hm.
  { destruct (chat_match ucd line) eqn:Hm; [|done].
    assert (startswith section_marker line = true)
      by (apply (chat_match_startswith ucd); by rewrite Hm).
    congruence. }
  rewrite loop_body_not_header by done. by rewrite Hskip, Hline.
Qed.

(** Lines that are no headers, met while not skipping, are all appended. *)
Lemma scan_from_kept st body :
  skip_until_next st = false →
  Forall (λ l, chat_match ucd l = None) body →
  scan_from ucd st body =
    ScanState (seen_conversations st) (filtered_lines st ++ body)
              (current_conversation st) false.
Proof.
  intros Hskip Hbody. revert st Hskip.
  induction Hbody as [|line body Hline _ IH]; intros st Hskip; simpl.
  - rewrite app_nil_r. by destruct st as [? ? ? []].
  - rewrite loop_body_not_header by done. rewrite Hskip. simpl.
    rewrite IH by done. simpl. by rewrite <-app_assoc.
Qed.

(** Lines whose headers are pairwise different and new to the set pass
    through unchanged. *)
Lemma scan_from_distinct st lines :
  skip_until_next st = false →
  NoDup (keys_of ucd lines) →
  (∀ key, key ∈ keys_of ucd lines → key ∉ seen_conversations st) →
  filtered_lines (scan_from ucd st lines) = filtered_lines st ++ lines.
Proof.
  revert st. induction lines as [|line lines IH]; intros st Hskip Hnd Hnew.
  - simpl. by rewrite app_nil_r.
  - simpl. unfold keys_of in Hnd, Hnew. simpl in Hnd, Hnew.
    destruct (chat_match ucd line) as [[[i d] t]|] eqn:Hm.
    + assert (line_key ucd line = Some (conversation_key i d)) as Hk
        by (unfold line_key; by rewrite Hm).
      rewrite Hk in Hnd, Hnew. simpl in Hnd, Hnew.
      apply NoDup_cons in Hnd as [Hfresh Hnd].
      erewrite loop_body_first; [|done|apply Hnew; by left].
      rewrite IH; simpl; [by rewrite <-app_assoc|done|done|].
      intros key Hin [Hseen| ->%elem_of_singleton]%elem_of_union.
      * apply (Hnew key); [by right|done].
      * done.
    + assert (line_key ucd line = None) as Hk by by apply line_key_None.
      rewrite Hk in Hnd, Hnew. simpl in Hnd, Hnew.
      rewrite loop_body_not_header by done. rewrite Hskip. simpl.
      rewrite IH; simpl; [by rewrite <-app_assoc|done|done|done].
Qed.

Lemma dedupe_fixpoint lines :
  dedupe ucd (dedupe ucd lines) = dedupe ucd lines.
Proof.
  destruct (scan_keys_tracked lines) as [Hnd _].
  unfold dedupe at 1. unfold scan.
  rewrite scan_from_distinct; [done|done|done|].
  simpl. intros key _. apply not_elem_of_empty.
Qed.

(** While the flag is up, the lines read so far end in a duplicate header
    followed by lines that start no section. *)
Lemma skipping_inside_span lines :
  skip_until_next (scan ucd lines) = true →
  ∃ before header body,
    lines = before ++ header :: body
    ∧ duplicate_header ucd before header
    ∧ Forall (λ l, startswith section_marker l = false) body.
Proof.
  induction lines as [|line lines IH] using rev_ind; [done|].
  rewrite scan_snoc.
  destruct (chat_match ucd line) as [[[i d] t]|] eqn:Hm.
  - destruct (decide (conversation_key i d
                        ∈ seen_conversations (scan ucd lines))) as [Hin|Hnew].
    + intros _. exists lines, line, []. split_and!; [done| |constructor].
      exists (conversation_key i d). split.
      * unfold line_key. by rewrite Hm.
      * by apply scan_seen.
    + by erewrite loop_body_first.
  - rewrite loop_body_not_header by done.
    destruct (skip_until_next (scan ucd lines)) eqn:Hskip; [|done].
    destruct (startswith section_marker line) eqn:Hsec; [done|]. simpl.
    intros _. destruct IH as (before & header & body & -> & Hdup & Hbody);
      [done|].
    exists before, header, (body ++ [line]).
    split_and!; [by rewrite <-app_assoc|done|].
    apply Forall_app. split; [done|]. by constructor.
Qed.

(** A duplicate header and the lines after it that start no section leave
    no trace in the output. *)
Lemma duplicate_span_dropped before header body :
  duplicate_header ucd before header →
  Forall (λ l, startswith section_marker l = false) body →
  dedupe ucd (before ++ header :: body) = dedupe ucd before.
Proof.
  intros (key & (i & d & t & Hm & ->)%line_key_Some & Hin%scan_seen) Hbody.
  unfold dedupe, scan. rewrite scan_from_app. simpl.
  fold (scan ucd before). erewrite loop_body_duplicate by done.
  by rewrite scan_from_skipped.
Qed.

Lemma dropped_inside_span pre line :
  skip_until_next (scan ucd (pre ++ [line])) = true →
  in_skip_span ucd pre line.
Proof.
  intros (before & header & body & Heq & Hdup & Hbody)%skipping_inside_span.
  exists before, header, body.
  split_and!; [done|done|done|by apply duplicate_span_dropped].
Qed.

Lemma dedupe_app pre post :
  ∃ tail, tail `sublist_of` post
          ∧ dedupe ucd (pre ++ post) = dedupe ucd pre ++ tail.
Proof.
  unfold dedupe, scan. rewrite scan_from_app.
  destruct (scan_from_filtered ucd (scan_from ucd scan_init pre) post)
    as (tail & -> & Hsub).
  by exists tail.
Qed.

Lemma dedupe_sublist lines : dedupe ucd lines `sublist_of` lines.
Proof.
  destruct (dedupe_app [] lines) as (tail & Hsub & Heq).
  simpl in Heq. by rewrite Heq.
Qed.

End ScanInvariants.

(** ** Splitting and joining lines *)

Lemma split_lines_nonempty (content : text) : split_lines content ≠ [].
Proof.
  destruct content as [|c content]; simpl; [done|].
  destruct (c =? newline); [done|]. by destruct (split_lines content).
Qed.

Lemma split_lines_no_newline (content : text) :
  Forall (λ l, newline ∉ l) (split_lines content).
Proof.
  induction content as [|c content IH]; simpl.
  - repeat constructor. apply not_elem_of_nil.
  - destruct (N.eqb_spec c newline) as [->|Hc].
    + constructor; [apply not_elem_of_nil | done].
    + destruct (split_lines content) as [|first others].
      * repeat constructor. intros ?%list_elem_of_singleton. congruence.
      * apply Forall_cons in IH as [Hfirst Hothers]. constructor; [|done].
        intros [?|?]%elem_of_cons; congruence.
Qed.

Lemma split_lines_plain (l : text) : newline ∉ l → split_lines l = [l].
Proof.
  induction l as [|c l IH]; intros Hl; simpl; [done|].
  apply not_elem_of_cons in Hl as [Hc Hl].
  destruct (N.eqb_spec c newline) as [->|_]; [done|]. by rewrite IH.
Qed.

Lemma split_lines_app_newline (l rest : text) :
  newline ∉ l → split_lines (l ++ newline :: rest) = l :: split_lines rest.
Proof.
  induction l as [|c l IH]; intros Hl; simpl; [done|].
  apply not_elem_of_cons in Hl as [Hc Hl].
  destruct (N.eqb_spec c newline) as [->|_]; [done|]. by rewrite IH.
Qed.

Lemma split_join (lines : list text) :
  lines ≠ [] → Forall (λ l, newline ∉ l) lines →
  split_lines (join_lines lines) = lines.
Proof.
  intros Hne Hall. induction Hall as [|l lines Hl Hall IH]; [done|].
  destruct lines as [|l' lines]; simpl.
  - by apply split_lines_plain.
  - rewrite split_lines_app_newline by done. f_equal. by apply IH.
Qed.

Lemma Forall_sublist {A} (P : A → Prop) (l k : list A) :
  l `sublist_of` k → Forall P k → Forall P l.
Proof.
  induction 1 as [|x l k _ IH|x l k _ IH]; intros Hk; [done| |].
  - apply Forall_cons in Hk as [? ?]. constructor; auto.
  - apply Forall_cons in Hk as [? ?]. auto.
Qed.

Lemma dedupe_first_line (ucd : unicode_data) (line : text) :
  dedupe ucd [line] = [line].
Proof.
  unfold dedupe, scan. simpl.
  destruct (chat_match ucd line) as [[[i d] t]|] eqn:Hm.
  - erewrite loop_body_first; [done|done|]. simpl. apply not_elem_of_empty.
  - by rewrite loop_body_not_header.
Qed.

Lemma dedupe_nonempty (ucd : unicode_data) (lines : list text) :
  lines ≠ [] → dedupe ucd lines ≠ [].
Proof.
  destruct lines as [|line lines]; [done|]. intros _.
  destruct (dedupe_app ucd [line] lines) as (tail & _ & Heq).
  simpl in Heq. rewrite Heq, dedupe_first_line. done.
Qed.

Lemma dedupe_text_fixpoint (ucd : unicode_data) (content : text) :
  dedupe_text ucd (dedupe_text ucd content) = dedupe_text ucd content.
Proof.
  unfold dedupe_text. rewrite split_join.
  - by rewrite dedupe_fixpoint.
  - apply dedupe_nonempty, split_lines_nonempty.
  - eapply Forall_sublist; [apply dedupe_sublist|].
    apply split_lines_no_newline.
Qed.

(** ** Scenarios *)

Example scenario_A :
  dedupe latin1 doc_A =
    [first_abc; str "body one"; other_def; str "body three"]
  ∧ size (seen_conversations (scan latin1 doc_A)) = 2%nat.
Proof. split; vm_compute; reflexivity. Qed.

Example scenario_C :
  dedupe latin1 (doc_before_duplicate ++ again_abc :: body_with_section) =
    [first_abc; str "body one"; notes_section; str "body three"].
Proof. vm_compute. reflexivity. Qed.

Example malformed_header_no_match :
  chat_match latin1 malformed_header = None.
Proof. vm_compute. reflexivity. Qed.

Example scenario_B :
  dedupe latin1 [str "free text"; []; str "  more text"]
    = [str "free text"; []; str "  more text"]
  ∧ size (seen_conversations
            (scan latin1 [str "free text"; []; str "  more text"])) = 0%nat.
Proof. split; vm_compute; reflexivity. Qed.

(** The scan of no lines at all: nothing kept, nothing seen.  The script
    never gets there, since splitting any text yields at least one line. *)
Lemma scan_no_lines (ucd : unicode_data) : scan ucd [] = scan_init.
Proof. reflexivity. Qed.

(** The pattern at work: a final line feed is tolerated, a second one or
    an empty title is not, and the identifier stops at the first character
    that is not a lowercase hexadecimal digit. *)
Example chat_match_groups :
  chat_match latin1 first_abc
    = Some (str "abc123", str "2024-01-01", str "First")
  ∧ chat_match latin1 (first_abc ++ [newline])
    = Some (str "abc123", str "2024-01-01", str "First")
  ∧ chat_match latin1 (first_abc ++ [newline; newline]) = None
  ∧ chat_match latin1 (str "## Chat abc123 - 2024-01-01 - ") = None
  ∧ chat_match latin1 (str "## Chat abc12g - 2024-01-01 - t") = None
  ∧ chat_match latin1 (str "## Chat abc123 - 2024-1-01 - t") = None
  ∧ chat_match latin1 notes_section = None.
Proof. repeat split; vm_compute; reflexivity. Qed.

Example split_join_samples :
  split_lines [] = [[]]
  ∧ split_lines (str "a" ++ [newline]) = [str "a"; []]
  ∧ join_lines [str "a"; []] = str "a" ++ [newline]
  ∧ join_lines [[]] = [].
Proof. repeat split; vm_compute; reflexivity. Qed.

(** ** The deduplicator's contract *)

(** C1, as the specification words it, fails: the lines of a duplicate
    entry that follow a section line which is no entry header are kept,
    although they come before the next header.  Here the duplicate of
    [abc123] loses its header and "body two" and keeps "## Notes" and
    "body three". *)
Lemma duplicate_body_survives_section :
  dedupe latin1 (doc_before_duplicate ++ again_abc :: body_with_section) =
    doc_before_duplicate ++ [notes_section; str "body three"]
  ∧ ¬ removed_up_to_next_header latin1
        doc_before_duplicate again_abc body_with_section.
Proof.
  split; [vm_compute; reflexivity|].
  intros Hclaim.
  assert (dedupe latin1 (doc_before_duplicate ++ again_abc :: body_with_section)
          = dedupe latin1 doc_before_duplicate) as Heq.
  { apply (Hclaim (str "abc123") (str "2024-01-01") (str "Again")).
    - vm_compute. reflexivity.
    - compute_done.
    - repeat constructor. }
  vm_compute in Heq. discriminate Heq.
Qed.

(** C1, amended: an entry is a header line with the lines after it up to
    the next line that begins with the section marker, entry header or
    not.  When the header's key is already in the seen set, the header and
    all of those lines are dropped, as one contiguous span; otherwise all
    of them are kept.  What comes after is filtered on its own. *)
Theorem duplicate_entry_removed_whole (ucd : unicode_data)
    (pre : list text) (header : text) (body rest : list text)
    (i d t : text) :
  chat_match ucd header = Some (i, d, t) →
  Forall (λ l, startswith section_marker l = false) body →
  ∃ tail,
    tail `sublist_of` rest
    ∧ dedupe ucd (pre ++ header :: body ++ rest) =
        dedupe ucd pre
        ++ (if bool_decide (conversation_key i d
                              ∈ seen_conversations (scan ucd pre))
            then [] else header :: body)
        ++ tail.
Proof.
  intros Hm Hbody.
  assert (Forall (λ l, chat_match ucd l = None) body) as Hplain.
  { eapply Forall_impl; [exact Hbody|]. intros l Hl. simpl in Hl.
    destruct (chat_match ucd l) eqn:Hml; [|done].
    assert (startswith section_marker l = true)
      by (apply (chat_match_startswith ucd); by rewrite Hml).
    congruence. }
  replace (pre ++ header :: body ++ rest)
    with ((pre ++ header :: body) ++ rest) by by rewrite <-app_assoc.
  destruct (dedupe_app ucd (pre ++ header :: body) rest)
    as (tail & Hsub & ->).
  exists tail. split; [done|]. rewrite app_assoc. f_equal.
  unfold dedupe, scan. rewrite scan_from_app. simpl.
  fold (scan ucd pre). case_bool_decide as Hseen.
  - erewrite loop_body_duplicate by done.
    rewrite scan_from_skipped by done. simpl. by rewrite app_nil_r.
  - erewrite loop_body_first by done.
    rewrite scan_from_kept by done. simpl. by rewrite <-app_assoc.
Qed.

Lemma duplicate_entry_removed_whole_witness :
  ∃ tail,
    tail `sublist_of` [notes_section; str "body three"]
    ∧ dedupe latin1 (doc_before_duplicate ++ again_abc :: [str "body two"]
                       ++ [notes_section; str "body three"]) =
        dedupe latin1 doc_before_duplicate ++ [] ++ tail.
Proof.
  apply (duplicate_entry_removed_whole latin1 doc_before_duplicate again_abc
           [str "body two"] [notes_section; str "body three"]
           (str "abc123") (str "2024-01-01") (str "Again")).
  - vm_compute. reflexivity.
  - repeat constructor.
Defined.

(** C2: the filter is idempotent, on documents as lists of lines and on
    the text that is read from and written to the log. *)
Theorem dedupe_idempotent (ucd : unicode_data) :
  (∀ doc : list text, dedupe ucd (dedupe ucd doc) = dedupe ucd doc)
  ∧ (∀ content : text,
       dedupe_text ucd (dedupe_text ucd content) = dedupe_text ucd content).
Proof. split; [apply dedupe_fixpoint | apply dedupe_text_fixpoint]. Qed.

(** C3: a line that is no entry header but begins with the section marker,
    reached while a duplicate is being skipped, lowers the flag and is
    itself emitted. *)
Theorem section_line_ends_skip (ucd : unicode_data)
    (pre : list text) (line : text) (post : list text) :
  skip_until_next (scan ucd pre) = true →
  chat_match ucd line = None →
  startswith section_marker line = true →
  skip_until_next (scan ucd (pre ++ [line])) = false
  ∧ dedupe ucd (pre ++ [line]) = dedupe ucd pre ++ [line]
  ∧ ∃ tail, tail `sublist_of` post
            ∧ dedupe ucd (pre ++ line :: post) = dedupe ucd pre ++ line :: tail.
Proof.
  intros Hskip Hm Hsec.
  assert (scan ucd (pre ++ [line]) =
          ScanState (seen_conversations (scan ucd pre))
                    (filtered_lines (scan ucd pre) ++ [line])
                    (current_conversation (scan ucd pre)) false) as Hstep.
  { rewrite scan_snoc, loop_body_not_header by done.
    by rewrite Hskip, Hsec. }
  split_and!.
  - by rewrite Hstep.
  - unfold dedupe. by rewrite Hstep.
  - replace (pre ++ line :: post) with ((pre ++ [line]) ++ post)
      by by rewrite <-app_assoc.
    destruct (dedupe_app ucd (pre ++ [line]) post) as (tail & Hsub & ->).
    exists tail. split; [done|]. unfold dedupe at 1. rewrite Hstep. simpl.
    by rewrite <-app_assoc.
Qed.

Lemma section_line_ends_skip_witness :
  skip_until_next
    (scan latin1 ([first_abc; again_abc; str "body two"] ++ [notes_section]))
  = false
  ∧ dedupe latin1 ([first_abc; again_abc; str "body two"] ++ [notes_section])
    = dedupe latin1 [first_abc; again_abc; str "body two"] ++ [notes_section]
  ∧ ∃ tail, tail `sublist_of` [str "body three"]
            ∧ dedupe latin1 ([first_abc; again_abc; str "body two"]
                               ++ notes_section :: [str "body three"])
              = dedupe latin1 [first_abc; again_abc; str "body two"]
                ++ notes_section :: tail.
Proof.
  apply (section_line_ends_skip latin1 [first_abc; again_abc; str "body two"]
           notes_section [str "body three"]); vm_compute; reflexivity.
Defined.

(** C4: the header lines of the filtered document carry pairwise different
    [(id, date)] identities; and for lines that parse as headers the key
    string [id-date] determines the pair, so that comparing keys is
    comparing pairs. *)
Theorem dedupe_identities_unique (ucd : unicode_data) (doc : list text) :
  NoDup (omap (line_identity ucd) (dedupe ucd doc))
  ∧ ∀ (l1 l2 i1 d1 t1 i2 d2 t2 : text),
      chat_match ucd l1 = Some (i1, d1, t1) →
      chat_match ucd l2 = Some (i2, d2, t2) →
      conversation_key i1 d1 = conversation_key i2 d2 →
      (i1, d1) = (i2, d2).
Proof.
  split.
  - destruct (scan_keys_tracked ucd doc) as [Hnd _].
    fold (dedupe ucd doc) in Hnd. rewrite keys_of_identities in Hnd.
    by apply NoDup_fmap_1 in Hnd.
  - intros l1 l2 i1 d1 t1 i2 d2 t2 H1 H2 Hkey.
    apply chat_match_date_length in H1, H2.
    apply conversation_key_inj in Hkey as [-> ->]; [done|congruence].
Qed.

Lemma dedupe_identities_unique_witness :
  NoDup (omap (line_identity latin1) (dedupe latin1 doc_A))
  ∧ (str "abc123", str "2024-01-01") = (str "abc123", str "2024-01-01").
Proof.
  destruct (dedupe_identities_unique latin1 doc_A) as [Hnd Hinj].
  split; [exact Hnd|].
  apply (Hinj first_abc again_abc _ _ (str "First") _ _ (str "Again"));
    vm_compute; reflexivity.
Defined.

(** C5: the filtered document is a subsequence of the input.  Each line is
    either appended as it stands when the scan reaches it, or dropped; a
    dropped line lies in a skip span, that is, it is a duplicate header or
    follows one with no section start in between. *)
Theorem dedupe_subsequence (ucd : unicode_data) (doc : list text) :
  dedupe ucd doc `sublist_of` doc
  ∧ ∀ (pre : list text) (line : text) (post : list text),
      doc = pre ++ line :: post →
      (∃ tail, tail `sublist_of` post
               ∧ dedupe ucd doc = dedupe ucd (pre ++ [line]) ++ tail)
      ∧ (dedupe ucd (pre ++ [line]) = dedupe ucd pre ++ [line]
         ∨ (dedupe ucd (pre ++ [line]) = dedupe ucd pre
            ∧ in_skip_span ucd pre line)).
Proof.
  split; [apply dedupe_sublist|].
  intros pre line post ->. split.
  - replace (pre ++ line :: post) with ((pre ++ [line]) ++ post)
      by by rewrite <-app_assoc.
    destruct (dedupe_app ucd (pre ++ [line]) post) as (tail & Hsub & ->).
    by exists tail.
  - pose proof (dropped_inside_span ucd pre line) as Hspan.
    unfold dedupe. rewrite scan_snoc in *.
    destruct (loop_body_emits ucd (scan ucd pre) line) as [[-> _]|[-> Hskip]];
      [by left|right].
    split; [done|]. by apply Hspan.
Qed.

Lemma dedupe_subsequence_witness :
  (∃ tail, tail `sublist_of` [other_def; str "body three"]
           ∧ dedupe latin1 doc_A
             = dedupe latin1 ([first_abc; str "body one"; again_abc]
                                ++ [str "body two"]) ++ tail)
  ∧ (dedupe latin1 ([first_abc; str "body one"; again_abc]
                      ++ [str "body two"])
     = dedupe latin1 [first_abc; str "body one"; again_abc]
       ++ [str "body two"]
     ∨ (dedupe latin1 ([first_abc; str "body one"; again_abc]
                         ++ [str "body two"])
        = dedupe latin1 [first_abc; str "body one"; again_abc]
        ∧ in_skip_span latin1 [first_abc; str "body one"; again_abc]
            (str "body two"))).
Proof.
  destruct (dedupe_subsequence latin1 doc_A) as [_ Hlines].
  apply (Hlines [first_abc; str "body one"; again_abc] (str "body two")
           [other_def; str "body three"]).
  reflexivity.
Defined.

(** C7, as worded, fails: a malformed header begins with the section
    marker, so when it is met while a duplicate is being skipped it is not
    dropped as a body line would be: it ends the skip and is appended, and
    the lines after it are appended too.  Here the duplicate of [abc123]
    is followed by a header with the id [XYZ] and by "body two"; both
    reach the output. *)
Lemma malformed_header_ends_skip :
  dedupe latin1 doc_malformed_in_duplicate
    = [first_abc; malformed_header; str "body two"]
  ∧ skip_until_next (scan latin1 [first_abc; again_abc]) = true
  ∧ ¬ handled_as_body_line latin1 (scan latin1 [first_abc; again_abc])
        malformed_header.
Proof.
  split_and!; [vm_compute; reflexivity | vm_compute; reflexivity |].
  intros Hclaim. destruct Hclaim as (_ & _ & Hskip);
    [vm_compute; reflexivity|].
  destruct Hskip as [_ Hflag]; [vm_compute; reflexivity|].
  vm_compute in Hflag. discriminate Hflag.
Qed.

(** C7, amended: a line that does not parse as an entry header is handled
    by total functions, so nothing is raised, and it leaves the seen set
    and the current conversation as they were.  When the scan is not
    skipping it is appended to the output.  When the scan is skipping it
    is dropped only if it does not begin with the section marker; a line
    that does, as every malformed header, ends the skip and is appended,
    so that such a line is appended in either state. *)
Theorem malformed_header_never_deduplicated (ucd : unicode_data)
    (st : scan_state) (line : text) :
  chat_match ucd line = None →
  seen_conversations (loop_body ucd st line) = seen_conversations st
  ∧ current_conversation (loop_body ucd st line) = current_conversation st
  ∧ (skip_until_next st = false →
     loop_body ucd st line =
       ScanState (seen_conversations st) (filtered_lines st ++ [line])
                 (current_conversation st) false)
  ∧ (skip_until_next st = true →
     loop_body ucd st line =
       if startswith section_marker line
       then ScanState (seen_conversations st) (filtered_lines st ++ [line])
                      (current_conversation st) false
       else st)
  ∧ (startswith section_marker line = true →
     loop_body ucd st line =
       ScanState (seen_conversations st) (filtered_lines st ++ [line])
                 (current_conversation st) false).
Proof.
  intros Hm. rewrite loop_body_not_header by done.
  destruct (skip_until_next st), (startswith section_marker line);
    simpl; split_and!; done.
Qed.

Lemma malformed_header_never_deduplicated_witness :
  seen_conversations
    (loop_body latin1 (scan latin1 [first_abc; again_abc]) malformed_header)
  = seen_conversations (scan latin1 [first_abc; again_abc])
  ∧ loop_body latin1 (scan latin1 [first_abc; again_abc]) malformed_header =
      ScanState (seen_conversations (scan latin1 [first_abc; again_abc]))
                (filtered_lines (scan latin1 [first_abc; again_abc])
                   ++ [malformed_header])
                (current_conversation (scan latin1 [first_abc; again_abc]))
                false
  ∧ loop_body latin1 (scan latin1 [first_abc]) malformed_header =
      ScanState (seen_conversations (scan latin1 [first_abc]))
                (filtered_lines (scan latin1 [first_abc]) ++ [malformed_header])
                (current_conversation (scan latin1 [first_abc])) false.
Proof.
  destruct (malformed_header_never_deduplicated latin1
              (scan latin1 [first_abc; again_abc]) malformed_header)
    as (Hseen & _ & _ & _ & Hsection); [vm_compute; reflexivity|].
  destruct (malformed_header_never_deduplicated latin1
              (scan latin1 [first_abc]) malformed_header)
    as (_ & _ & Hkeep & _ & _); [vm_compute; reflexivity|].
  split_and!; [exact Hseen | apply Hsection | apply Hkeep];
    vm_compute; reflexivity.
Defined.

(** ** Persistence *)

Lemma log_file_ne_backup_file : log_file ≠ backup_file.
Proof. unfold log_file, backup_file. discriminate. Qed.

(** C6, as worded, fails: an empty file splits into one empty line, so the
    run reports one original and one final line, not zero. *)
Lemma empty_log_counts_one_line :
  (dedupe_conversation_log latin1 no_faults empty_log_world).1
    = Ok (Some (Statistics 1 1 0 0))
  ∧ (dedupe_conversation_log latin1 no_faults empty_log_world).1
    ≠ Ok (Some (Statistics 0 0 0 0)).
Proof.
  assert ((dedupe_conversation_log latin1 no_faults empty_log_world).1
          = Ok (Some (Statistics 1 1 0 0))) as Hrun
    by (vm_compute; reflexivity).
  split; [exact Hrun|]. rewrite Hrun. discriminate.
Qed.

(** C6, amended: on an existing empty log, with no failure of the rename
    or the write, the filtered text is empty, the removed-line count and
    the conversation count are zero, the original and the final line
    count are both one, and the rename to the backup and the write of the
    log both take place, each leaving a file of length zero. *)
Theorem empty_log_run (ucd : unicode_data) (flt : faults) (w : world) :
  files w !! log_file = Some [] →
  rename_fails flt = false →
  write_fails flt = false →
  ∃ w',
    dedupe_conversation_log ucd flt w = (Ok (Some (Statistics 1 1 0 0)), w')
    ∧ dedupe_text ucd [] = []
    ∧ files w' !! backup_file = Some []
    ∧ files w' !! log_file = Some []
    ∧ journal w' =
        journal w ++ [EvRename log_file backup_file true;
                      EvWrite log_file [] true].
Proof.
  intros Hlog Hren Hwr.
  unfold dedupe_conversation_log, rename, write_text.
  rewrite Hlog, Hren, Hwr. cbn [split_lines].
  assert (scan ucd [[]] = ScanState ∅ [[]] None false) as -> by done.
  cbn -[log_file backup_file]. eexists. split_and!; [done|done| | |].
  - cbn -[log_file backup_file].
    rewrite lookup_insert_ne by apply log_file_ne_backup_file.
    by rewrite lookup_insert_eq.
  - cbn -[log_file backup_file]. by rewrite lookup_insert_eq.
  - cbn -[log_file backup_file]. by rewrite <-app_assoc.
Qed.

Lemma empty_log_run_witness :
  ∃ w',
    dedupe_conversation_log latin1 no_faults empty_log_world
      = (Ok (Some (Statistics 1 1 0 0)), w')
    ∧ dedupe_text latin1 [] = []
    ∧ files w' !! backup_file = Some []
    ∧ files w' !! log_file = Some []
    ∧ journal w' =
        journal empty_log_world ++ [EvRename log_file backup_file true;
                                    EvWrite log_file [] true].
Proof.
  apply (empty_log_run latin1 no_faults empty_log_world); reflexivity.
Defined.

(** C8: once the log has been read, the rename to the backup location
    comes first.  If it fails the run ends with that error, no file has
    changed and no write is attempted.  If it succeeds the backup location
    holds the original content, the write of the filtered text is applied
    to that state, and the backup still holds the original afterwards,
    whether the write succeeds or not. *)
Theorem backup_precedes_overwrite (ucd : unicode_data) (flt : faults)
    (w : world) (content : text) :
  files w !! log_file = Some content →
  (rename_fails flt = true →
   dedupe_conversation_log ucd flt w =
     (Raise OSError,
      World (files w) (journal w ++ [EvRename log_file backup_file false])))
  ∧ (rename_fails flt = false →
     ∃ w1,
       rename flt log_file backup_file w = (Ok (), w1)
       ∧ files w1 !! backup_file = Some content
       ∧ journal w1 = journal w ++ [EvRename log_file backup_file true]
       ∧ (dedupe_conversation_log ucd flt w).2 =
           (write_text flt log_file (dedupe_text ucd content) w1).2
       ∧ journal (dedupe_conversation_log ucd flt w).2 =
           journal w1 ++ [EvWrite log_file (dedupe_text ucd content)
                                  (negb (write_fails flt))]
       ∧ files (dedupe_conversation_log ucd flt w).2 !! backup_file
           = Some content
       ∧ (write_fails flt = false →
          files (dedupe_conversation_log ucd flt w).2 !! log_file
            = Some (dedupe_text ucd content))).
Proof.
  intros Hlog. unfold dedupe_conversation_log, rename. rewrite Hlog.
  split; intros Hren; rewrite Hren; [done|].
  eexists. split; [done|].
  fold (dedupe ucd (split_lines content)). fold (dedupe_text ucd content).
  unfold write_text. cbn [files journal].
  split_and!.
  - by rewrite lookup_insert_eq.
  - done.
  - by destruct (write_fails flt).
  - by destruct (write_fails flt).
  - destruct (write_fails flt), (write_residue flt); cbn [snd files];
      rewrite ?(lookup_insert_ne _ log_file backup_file)
        by apply log_file_ne_backup_file;
      by rewrite lookup_insert_eq.
  - intros ->. cbn [snd files]. by rewrite lookup_insert_eq.
Qed.

Lemma backup_precedes_overwrite_witness :
  dedupe_conversation_log latin1 (Faults true false None) log_A_world =
    (Raise OSError,
     World (files log_A_world)
           (journal log_A_world ++ [EvRename log_file backup_file false]))
  ∧ files (dedupe_conversation_log latin1 no_faults log_A_world).2
      !! backup_file = Some (join_lines doc_A)
  ∧ files (dedupe_conversation_log latin1 no_faults log_A_world).2
      !! log_file = Some (dedupe_text latin1 (join_lines doc_A)).
Proof.
  destruct (backup_precedes_overwrite latin1 (Faults true false None)
              log_A_world (join_lines doc_A)) as [Hfail _]; [reflexivity|].
  destruct (backup_precedes_overwrite latin1 no_faults
              log_A_world (join_lines doc_A)) as [_ Hok]; [reflexivity|].
  destruct Hok as (w1 & _ & _ & _ & _ & _ & Hbackup & Hlog); [reflexivity|].
  split_and!; [apply Hfail; reflexivity | exact Hbackup | apply Hlog; reflexivity].
Defined.

(** ** The analyzer *)

Lemma true_div_raises (a b : Z) :
  true_div a b = Raise ZeroDivisionError ↔ b = 0%Z.
Proof.
  unfold true_div. destruct (Z.eqb_spec b 0); split; intros; done.
Qed.

(** In the overall-statistics branch the only division that can fail is
    the one by [estimated_json_size], and it fails exactly when no token
    was counted. *)
Lemma overall_statistics_raises (total_tokens total_size total_blocks : Z) :
  (0 < total_size)%Z →
  overall_statistics total_tokens total_size total_blocks
    = Raise ZeroDivisionError
  ↔ total_tokens = 0%Z.
Proof.
  intros Hsize. unfold overall_statistics, true_div. simpl (1024 =? 0)%Z.
  destruct (Z.eqb_spec total_size 0) as [|_]; [lia|].
  destruct (Z.eqb_spec (total_tokens * 15) 0); split; intros; try done; lia.
Qed.

(** The branch runs to its end exactly when none of its divisors is zero. *)
Lemma overall_statistics_defined (total_tokens total_size total_blocks : Z) :
  (∃ o, overall_statistics total_tokens total_size total_blocks = Ok o)
  ↔ Forall (λ d, d ≠ 0%Z) (overall_divisors total_tokens total_size).
Proof.
  unfold overall_statistics, overall_divisors, true_div.
  simpl (1024 =? 0)%Z. rewrite !Forall_cons, Forall_nil.
  destruct (Z.eqb_spec total_size 0) as [Hs|Hs];
    [split; [by intros [o ?]|tauto]|].
  destruct (Z.eqb_spec (total_tokens * 15) 0) as [Ht|Ht];
    [split; [by intros [o ?]|tauto]|].
  split; [intros _; split_and!; done | eauto].
Qed.

(** C9 fails on the code: a file that has bytes but no word character
    gives [total_size > 0] and [total_tokens = 0]; the last divisor of the
    branch, [estimated_json_size], is then zero and [main] ends with
    [ZeroDivisionError]. *)
Theorem main_divides_by_zero :
  (main_totals latin1 punctuation_only_fs).2 = (0, 3, 0)%Z
  ∧ overall_divisors 0 3 = [1024; 3; 3; 0]%Z
  ∧ main latin1 punctuation_only_fs = Raise ZeroDivisionError.
Proof. split_and!; vm_compute; reflexivity. Qed.

(** ** [count_tokens] *)

Section Tokens.
Context (cls : N → bool).

Local Notation "'pieces_counted' pieces" :=
  (length (filter (λ word, truthy word = true) pieces))
  (at level 10, pieces at level 9, only parsing).

Local Notation "'kept'" := (λ c, negb (cls c)) (only parsing).

Lemma re_split_runs_nonempty (in_run : bool) (s : text) :
  re_split_runs cls in_run s ≠ [].
Proof.
  revert in_run. induction s as [|c s IH]; intros in_run; simpl; [done|].
  destruct (cls c).
  - destruct in_run; [apply IH | done].
  - by destruct (re_split_runs cls false s).
Qed.

(** The non-empty pieces of a split are the maximal runs of characters
    outside the class; the second part accounts for the piece that is
    still being built. *)
Lemma re_split_runs_count (s : text) :
  (∀ in_run, pieces_counted (re_split_runs cls in_run s)
             = count_maximal_runs kept false s)
  ∧ (∀ piece pieces, re_split_runs cls false s = piece :: pieces →
       pieces_counted pieces = count_maximal_runs kept true s).
Proof.
  induction s as [|c s [IHall IHtail]]; simpl.
  - split; [done|]. by intros piece pieces [= <- <-].
  - destruct (cls c) eqn:Hc; simpl.
    + split.
      * intros [|]; [apply IHall|].
        rewrite filter_cons_False by done. apply IHall.
      * intros piece pieces [= <- <-]. apply IHall.
    + destruct (re_split_runs cls false s) as [|piece' pieces'] eqn:Hsplit;
        [by apply re_split_runs_nonempty in Hsplit|].
      specialize (IHtail _ _ eq_refl). split.
      * intros _. rewrite filter_cons_True by done. simpl. f_equal.
        apply IHtail.
      * intros piece pieces [= <- <-]. apply IHtail.
Qed.

End Tokens.

Lemma count_maximal_runs_ext (f g : N → bool) (in_run : bool) (s : text) :
  Forall (λ c, f c = g c) s →
  count_maximal_runs f in_run s = count_maximal_runs g in_run s.
Proof.
  intros Hall. revert in_run.
  induction Hall as [|c s Hc _ IH]; intros in_run; simpl; [done|].
  rewrite Hc. destruct (g c); by rewrite ?IH.
Qed.

(** Replacing the runs of a class by one character leaves the runs of [w]
    as they are, when neither the class nor the replacement meets [w]. *)
Lemma re_sub_runs_preserves_runs (cls w : N → bool) (repl : N) (s : text) :
  (∀ c, cls c = true → w c = false) →
  w repl = false →
  ∀ in_w in_cls, (in_cls = true → in_w = false) →
    count_maximal_runs w in_w (re_sub_runs cls [repl] in_cls s)
    = count_maximal_runs w in_w s.
Proof.
  intros Hcls Hrepl. induction s as [|c s IH]; intros in_w in_cls Hflags;
    simpl; [done|].
  destruct (cls c) eqn:Hc.
  - rewrite (Hcls c Hc). destruct in_cls; simpl.
    + rewrite (Hflags eq_refl). by apply IH.
    + rewrite Hrepl. by apply IH.
  - simpl. destruct (w c); by rewrite IH.
Qed.

Section CountTokens.
Context (ucd : unicode_data).
Hypothesis space_not_word : ∀ c, isspace ucd c = true → is_word ucd c = false.
Hypothesis blank_not_word : is_word ucd space = false.

Lemma is_separator_not_word (c : N) :
  negb (is_separator ucd c) = is_word ucd c.
Proof.
  unfold is_separator. destruct (isspace ucd c) eqn:Hs; simpl.
  - by rewrite space_not_word.
  - by destruct (is_word ucd c).
Qed.

Lemma split_counts_word_runs (s : text) :
  length (filter (λ word, truthy word = true)
            (re_split_runs (is_separator ucd) false s))
  = count_maximal_runs (is_word ucd) false s.
Proof.
  destruct (re_split_runs_count (is_separator ucd) s) as [-> _].
  apply count_maximal_runs_ext, Forall_forall. intros c _.
  apply is_separator_not_word.
Qed.

Lemma count_tokens_word_runs (s : text) :
  count_tokens ucd s = count_maximal_runs (is_word ucd) false s.
Proof.
  unfold count_tokens. rewrite split_counts_word_runs.
  by apply re_sub_runs_preserves_runs.
Qed.

End CountTokens.

Lemma in_range_true (lo hi c : N) :
  in_range lo hi c = true ↔ lo ≤ c ∧ c ≤ hi.
Proof. unfold in_range. rewrite andb_true_iff, !N.leb_le. done. Qed.

Lemma latin1_space_not_word (c : N) :
  isspace latin1 c = true → is_word latin1 c = false.
Proof.
  unfold is_word, underscore. simpl.
  unfold latin1_isspace, latin1_isalnum. intros Hs.
  apply not_true_iff_false. intros Hw.
  repeat first [rewrite orb_true_iff in Hs | rewrite in_range_true in Hs
               | rewrite N.eqb_eq in Hs].
  repeat first [rewrite orb_true_iff in Hw | rewrite in_range_true in Hw
               | rewrite N.eqb_eq in Hw].
  lia.
Qed.

Example re_split_samples :
  re_split_runs (is_separator latin1) false (str " a") = [[]; str "a"]
  ∧ re_split_runs (is_separator latin1) false (str "a ") = [str "a"; []]
  ∧ re_split_runs (is_separator latin1) false (str "  ") = [[]; []]
  ∧ re_split_runs (is_separator latin1) false [] = [[]]
  ∧ re_sub_runs (isspace latin1) [space] false (str "a   b ") = str "a b ".
Proof. repeat split; vm_compute; reflexivity. Qed.

Example count_semantic_blocks_sample :
  count_semantic_blocks (str "@@AB @a @_x@Y@") = 3%nat.
Proof. vm_compute. reflexivity. Qed.

Example count_tokens_hello : count_tokens latin1 hello_world = 2%nat.
Proof. vm_compute. reflexivity. Qed.

(** C10, as worded, fails: [\W] is Unicode aware, so an accented letter is
    a word character and makes a token, while it contains no character of
    [[A-Za-z0-9_]]. *)
Lemma accented_letter_is_a_token :
  count_tokens latin1 e_acute = 1%nat
  ∧ count_maximal_runs is_ascii_word false e_acute = 0%nat.
Proof. split; vm_compute; reflexivity. Qed.

(** C10, amended: [count_tokens] returns the number of maximal runs of word
    characters in the sense of [\w] (alphanumeric code points and the
    underscore), given that white space is never a word character.  It
    returns 0 on the empty string, the white-space substitution does not
    change the count, and on a text whose characters [\w] classifies as
    [[A-Za-z0-9_]] does, as on every ASCII text, the runs are those of
    [[A-Za-z0-9_]]. *)
Theorem count_tokens_counts_word_runs (ucd : unicode_data) (s : text) :
  (∀ c, isspace ucd c = true → is_word ucd c = false) →
  is_word ucd space = false →
  count_tokens ucd s = count_maximal_runs (is_word ucd) false s
  ∧ count_tokens ucd [] = 0%nat
  ∧ length (filter (λ word, truthy word = true)
              (re_split_runs (is_separator ucd) false s))
    = count_tokens ucd s
  ∧ (Forall (λ c, is_word ucd c = is_ascii_word c) s →
     count_tokens ucd s = count_maximal_runs is_ascii_word false s).
Proof.
  intros Hspace Hblank. split_and!.
  - by apply count_tokens_word_runs.
  - done.
  - rewrite split_counts_word_runs by done.
    symmetry. by apply count_tokens_word_runs.
  - intros Hascii. rewrite count_tokens_word_runs by done.
    by apply count_maximal_runs_ext.
Qed.

Lemma count_tokens_counts_word_runs_witness :
  count_tokens latin1 hello_world
    = count_maximal_runs (is_word latin1) false hello_world
  ∧ count_tokens latin1 hello_world
    = count_maximal_runs is_ascii_word false hello_world.
Proof.
  destruct (count_tokens_counts_word_runs latin1 hello_world)
    as (Hruns & _ & _ & Hascii).
  - apply latin1_space_not_word.
  - reflexivity.
  - split; [exact Hruns|]. apply Hascii.
    vm_compute. repeat constructor.
Defined.

(** * Further properties of the deduplicator *)

Section DedupeFurther.
Context (ucd : unicode_data).
Implicit Types (st : scan_state) (line key : text) (lines : list text).

Lemma loop_body_keys_complete st line :
  keys_complete ucd st → keys_complete ucd (loop_body ucd st line).
Proof.
  intros Hst key.
  destruct (chat_match ucd line) as [[[i d] t]|] eqn:Hm.
  - destruct (decide (conversation_key i d ∈ seen_conversations st)) as [|Hnew].
    + erewrite loop_body_duplicate by done. apply Hst.
    + erewrite loop_body_first by done. simpl. rewrite keys_of_app.
      assert (keys_of ucd [line] = [conversation_key i d]) as ->
        by (unfold keys_of, line_key; simpl; by rewrite Hm).
      intros [Hin| ->%elem_of_singleton]%elem_of_union; apply elem_of_app.
      * left. by apply Hst.
      * right. by apply list_elem_of_singleton.
  - rewrite loop_body_not_header by done.
    destruct (_ && _); [apply Hst|]. simpl. rewrite keys_of_app.
    intros Hin. apply elem_of_app. left. by apply Hst.
Qed.

Lemma scan_from_keys_complete st lines :
  keys_complete ucd st → keys_complete ucd (scan_from ucd st lines).
Proof.
  revert st. induction lines as [|line lines IH]; intros st Hst; [done|].
  simpl. by apply IH, loop_body_keys_complete.
Qed.

Lemma scan_keys_complete lines : keys_complete ucd (scan ucd lines).
Proof.
  apply scan_from_keys_complete. intros key Hin. simpl in Hin.
  by apply not_elem_of_empty in Hin.
Qed.

Lemma sublist_elem_of {A} (x : A) (l k : list A) :
  l `sublist_of` k → x ∈ l → x ∈ k.
Proof.
  induction 1 as [|y l k _ IH|y l k _ IH]; [done| |].
  - intros [->|Hin]%elem_of_cons; [by left | right; auto].
  - intros Hin. right. auto.
Qed.

(** The header keys of the output are those of the input. *)
Lemma output_keys lines key :
  key ∈ keys_of ucd (dedupe ucd lines) ↔ key ∈ keys_of ucd lines.
Proof.
  split.
  - unfold keys_of. rewrite !list_elem_of_omap. intros (l & Hin & Hk).
    exists l. split; [|done].
    eapply sublist_elem_of; [apply dedupe_sublist | done].
  - intros Hin%scan_seen. by apply scan_keys_complete.
Qed.

Lemma identity_date_length lines (p : text * text) :
  p ∈ identities ucd lines → length p.2 = 10%nat.
Proof.
  unfold identities. rewrite list_elem_of_omap. intros (l & _ & Hid).
  unfold line_identity in Hid.
  destruct (chat_match ucd l) as [[[i d] t]|] eqn:Hm; [|done].
  injection Hid as <-. simpl. by eapply chat_match_date_length.
Qed.

Lemma identity_key_elem lines (i d : text) :
  length d = 10%nat →
  conversation_key i d ∈ keys_of ucd lines ↔ (i, d) ∈ identities ucd lines.
Proof.
  intros Hlen. rewrite keys_of_identities. fold (identities ucd lines).
  rewrite list_elem_of_fmap. split.
  - intros ([i' d'] & Hkey & Hin). simpl in Hkey.
    pose proof (identity_date_length _ _ Hin) as Hlen'. simpl in Hlen'.
    apply conversation_key_inj in Hkey as [-> ->]; [done|congruence].
  - intros Hin. by exists (i, d).
Qed.

Lemma output_identities lines (p : text * text) :
  p ∈ identities ucd (dedupe ucd lines) ↔ p ∈ identities ucd lines.
Proof.
  destruct p as [i d]. split; intros Hin.
  - pose proof (identity_date_length _ _ Hin) as Hlen. simpl in Hlen.
    apply (identity_key_elem _ _ _ Hlen).
    apply (identity_key_elem _ _ _ Hlen) in Hin.
    exact (proj1 (output_keys _ _) Hin).
  - pose proof (identity_date_length _ _ Hin) as Hlen. simpl in Hlen.
    apply (identity_key_elem _ _ _ Hlen).
    apply (identity_key_elem _ _ _ Hlen) in Hin.
    exact (proj2 (output_keys _ _) Hin).
Qed.

Lemma keys_NoDup_identities lines :
  NoDup (keys_of ucd lines) ↔ NoDup (identities ucd lines).
Proof.
  rewrite keys_of_identities. fold (identities ucd lines). split.
  - apply NoDup_fmap_1.
  - apply NoDup_fmap_2_strong. intros [i1 d1] [i2 d2] H1 H2 Hkey.
    apply identity_date_length in H1, H2. simpl in *.
    apply conversation_key_inj in Hkey as [-> ->]; [done|congruence].
Qed.

Lemma output_identities_NoDup lines :
  NoDup (identities ucd (dedupe ucd lines)).
Proof.
  apply keys_NoDup_identities. apply (scan_keys_tracked ucd lines).
Qed.

Lemma dedupe_unchanged_iff lines :
  dedupe ucd lines = lines ↔ NoDup (identities ucd lines).
Proof.
  split.
  - intros Heq. rewrite <-Heq. apply output_identities_NoDup.
  - intros Hnd%keys_NoDup_identities. unfold dedupe, scan.
    rewrite scan_from_distinct; [done|done|done|].
    simpl. intros key _. apply not_elem_of_empty.
Qed.

Lemma join_split (content : text) : join_lines (split_lines content) = content.
Proof.
  induction content as [|c content IH]; [done|]. cbn [split_lines].
  destruct (split_lines content) as [|l ls] eqn:Hs;
    [by apply split_lines_nonempty in Hs|].
  destruct (N.eqb_spec c newline) as [->|_].
  - change (join_lines ([] :: l :: ls)) with (newline :: join_lines (l :: ls)).
    by rewrite IH.
  - rewrite <-IH. by destruct ls.
Qed.

Lemma seen_size lines :
  size (seen_conversations (scan ucd lines))
  = length (keys_of ucd (dedupe ucd lines)).
Proof.
  destruct (scan_keys_tracked ucd lines) as [Hnd Hsub].
  pose proof (scan_keys_complete lines) as Hcomp.
  fold (dedupe ucd lines) in *.
  rewrite <-(size_list_to_set (C:=gset (list N))) by done.
  f_equal. apply set_eq. intros key. rewrite elem_of_list_to_set.
  split; [apply Hcomp | apply Hsub].
Qed.

End DedupeFurther.

(** X1: the matcher and the pattern agree.  A line yields the groups
    [(conv_id, date, title)] exactly when it is the marker, a non-empty run
    of lowercase hexadecimal digits, a separator, a date of 4, 2 and 2
    decimal digits joined by dashes, a separator and a non-empty title
    without line feed, optionally followed by one line feed; so a line
    decomposes in one way at most. *)
Theorem chat_match_iff_header_shape (ucd : unicode_data)
    (line conv_id date title : text) :
  chat_match ucd line = Some (conv_id, date, title) ↔
  header_shape ucd line conv_id date title.
Proof. apply chat_match_spec. Qed.

Lemma chat_match_iff_header_shape_witness :
  chat_match latin1 first_abc
    = Some (str "abc123", str "2024-01-01", str "First").
Proof.
  apply (chat_match_iff_header_shape latin1 first_abc).
  exists (str "2024"), (str "01"), (str "01"), [].
  split_and!; try (vm_compute; reflexivity); try done.
  - repeat constructor.
  - repeat constructor.
  - repeat constructor.
  - repeat constructor.
  - repeat constructor.
  - by left.
Defined.

(** X2: first occurrence wins.  When the scan reaches an entry header, the
    header is appended if its [(id, date)] identity occurs in no header
    read before, and dropped if it does; the title plays no part. *)
Theorem first_occurrence_wins (ucd : unicode_data)
    (pre : list text) (header i d t : text) :
  chat_match ucd header = Some (i, d, t) →
  ((i, d) ∉ identities ucd pre →
   dedupe ucd (pre ++ [header]) = dedupe ucd pre ++ [header])
  ∧ ((i, d) ∈ identities ucd pre →
     dedupe ucd (pre ++ [header]) = dedupe ucd pre).
Proof.
  intros Hm. pose proof (chat_match_date_length _ _ _ _ _ Hm) as Hlen.
  unfold dedupe. rewrite scan_snoc. split; intros Hid.
  - erewrite loop_body_first; [done|done|].
    intros Hin%scan_seen. by apply identity_key_elem in Hin.
  - erewrite loop_body_duplicate; [done|done|].
    by apply scan_seen, identity_key_elem.
Qed.

Lemma first_occurrence_wins_witness :
  dedupe latin1 ([first_abc; str "body one"] ++ [other_def])
    = dedupe latin1 [first_abc; str "body one"] ++ [other_def]
  ∧ dedupe latin1 ([first_abc; str "body one"] ++ [again_abc])
    = dedupe latin1 [first_abc; str "body one"].
Proof.
  split.
  - apply (first_occurrence_wins latin1 [first_abc; str "body one"] other_def
             (str "def456") (str "2024-01-02") (str "Other")).
    + vm_compute. reflexivity.
    + vm_compute. intros Hin. inversion Hin as [|? ? ? Hnil]. inversion Hnil.
  - apply (first_occurrence_wins latin1 [first_abc; str "body one"] again_abc
             (str "abc123") (str "2024-01-01") (str "Again")).
    + vm_compute. reflexivity.
    + vm_compute. constructor.
Defined.

(** X3: no conversation is lost and none is invented: the identities of
    the header lines of the output are those of the input, each once. *)
Theorem identities_preserved (ucd : unicode_data) (doc : list text) :
  (∀ p, p ∈ identities ucd (dedupe ucd doc) ↔ p ∈ identities ucd doc)
  ∧ identities ucd (dedupe ucd doc) ≡ₚ remove_dups (identities ucd doc).
Proof.
  split; [apply output_identities|].
  apply NoDup_Permutation.
  - apply output_identities_NoDup.
  - apply NoDup_remove_dups.
  - intros p. rewrite elem_of_remove_dups. apply output_identities.
Qed.

Lemma identities_preserved_witness :
  (str "abc123", str "2024-01-01") ∈ identities latin1 (dedupe latin1 doc_A).
Proof.
  destruct (identities_preserved latin1 doc_A) as [Hsame _].
  apply Hsame. vm_compute. constructor.
Defined.

(** X4: the filter returns a document as it is exactly when no two of its
    header lines share an identity; and then the text written back is the
    text that was read. *)
Theorem dedupe_unchanged_iff_no_duplicates (ucd : unicode_data) :
  (∀ doc : list text,
     dedupe ucd doc = doc ↔ NoDup (identities ucd doc))
  ∧ (∀ content : text,
       dedupe_text ucd content = content
       ↔ NoDup (identities ucd (split_lines content))).
Proof.
  split; [apply dedupe_unchanged_iff|].
  intros content. rewrite <-dedupe_unchanged_iff. unfold dedupe_text. split.
  - intros Heq. rewrite <-Heq at 2. symmetry. apply split_join.
    + apply dedupe_nonempty, split_lines_nonempty.
    + eapply Forall_sublist; [apply dedupe_sublist|].
      apply split_lines_no_newline.
  - intros ->. apply join_split.
Qed.

Lemma dedupe_unchanged_iff_no_duplicates_witness :
  dedupe latin1 [first_abc; str "body one"; other_def]
    = [first_abc; str "body one"; other_def].
Proof.
  destruct (dedupe_unchanged_iff_no_duplicates latin1) as [Hlines _].
  apply Hlines. vm_compute. repeat constructor.
  - intros Hin. inversion Hin as [|? ? ? Hnil]. inversion Hnil.
  - intros Hin. inversion Hin.
Defined.

(** X5: splitting at line feeds and joining with line feeds are inverse:
    joining the lines of a text gives the text back, and splitting the
    join of a non-empty list of lines free of line feeds gives the list
    back. *)
Theorem split_join_round_trip :
  (∀ content : text, join_lines (split_lines content) = content)
  ∧ (∀ lines : list text,
       lines ≠ [] → Forall (λ l, newline ∉ l) lines →
       split_lines (join_lines lines) = lines).
Proof. split; [apply join_split | apply split_join]. Qed.

Lemma split_join_round_trip_witness :
  split_lines (join_lines [str "a"; []; str "b"]) = [str "a"; []; str "b"].
Proof.
  destruct split_join_round_trip as [_ Hsplit]. apply Hsplit; [done|].
  repeat constructor; vm_compute; intros Hin;
    repeat (inversion Hin as [|? ? ? Hin']; clear Hin; rename Hin' into Hin).
Defined.

(** ** The run as a whole *)

Lemma length_omap_le {A B} (f : A → option B) (l : list A) :
  (length (omap f l) ≤ length l)%nat.
Proof.
  induction l as [|x l IH]; csimpl; [done|]. destruct (f x); csimpl; lia.
Qed.

(** What a run with no failure returns and leaves behind. *)
Lemma run_without_failure (ucd : unicode_data) (flt : faults) (w : world)
    (content : text) :
  files w !! log_file = Some content →
  rename_fails flt = false →
  write_fails flt = false →
  dedupe_conversation_log ucd flt w =
    (Ok (Some (Statistics
                 (Z.of_nat (length (split_lines content)))
                 (Z.of_nat (length (dedupe ucd (split_lines content))))
                 (Z.of_nat (length (split_lines content))
                  - Z.of_nat (length (dedupe ucd (split_lines content))))%Z
                 (Z.of_nat (size (seen_conversations
                                    (scan ucd (split_lines content))))))),
     World (<[log_file := dedupe_text ucd content]>
              (<[backup_file := content]> (delete log_file (files w))))
           ((journal w ++ [EvRename log_file backup_file true])
              ++ [EvWrite log_file (dedupe_text ucd content) true])).
Proof.
  intros Hlog Hren Hwr. unfold dedupe_conversation_log, rename, write_text.
  by rewrite Hlog, Hren, Hwr.
Qed.

(** A run returns statistics only when nothing failed. *)
Lemma run_statistics_inv (ucd : unicode_data) (flt : faults) (w w' : world)
    (stats : statistics) :
  dedupe_conversation_log ucd flt w = (Ok (Some stats), w') →
  ∃ content, files w !! log_file = Some content
             ∧ rename_fails flt = false ∧ write_fails flt = false.
Proof.
  unfold dedupe_conversation_log, rename, write_text.
  destruct (files w !! log_file) as [content|]; [|done].
  destruct (rename_fails flt); [done|]. destruct (write_fails flt); [done|].
  intros _. by exists content.
Qed.

(** X6: the statistics of a completed run.  The original count is the
    number of pieces between line feeds, original = final + removed, at
    least one line is kept and none is added, and the conversations found
    are the header lines of the output, one for each distinct identity of
    the input. *)
Theorem run_statistics (ucd : unicode_data) (flt : faults) (w w' : world)
    (content : text) (stats : statistics) :
  files w !! log_file = Some content →
  dedupe_conversation_log ucd flt w = (Ok (Some stats), w') →
  original_lines stats = Z.of_nat (length (split_lines content))
  ∧ final_lines stats = Z.of_nat (length (dedupe ucd (split_lines content)))
  ∧ (original_lines stats = final_lines stats + removed_lines stats)%Z
  ∧ (1 ≤ final_lines stats ≤ original_lines stats)%Z
  ∧ conversations_found stats
    = Z.of_nat (length (identities ucd (dedupe ucd (split_lines content))))
  ∧ conversations_found stats
    = Z.of_nat (length (remove_dups (identities ucd (split_lines content))))
  ∧ (conversations_found stats ≤ final_lines stats)%Z.
Proof.
  intros Hlog Hrun.
  destruct (run_statistics_inv _ _ _ _ _ Hrun) as (content' & Hlog' & Hren & Hwr).
  rewrite (run_without_failure ucd flt w content Hlog Hren Hwr) in Hrun.
  injection Hrun as <- _. simpl.
  set (lines := split_lines content).
  assert (length (dedupe ucd lines) ≤ length lines)%nat as Hle
    by apply sublist_length, dedupe_sublist.
  assert (dedupe ucd lines ≠ []) as Hne
    by apply dedupe_nonempty, split_lines_nonempty.
  assert (size (seen_conversations (scan ucd lines))
          = length (identities ucd (dedupe ucd lines))) as Hsize.
  { rewrite seen_size, keys_of_identities. apply length_fmap. }
  assert (length (identities ucd (dedupe ucd lines))
          ≤ length (dedupe ucd lines))%nat as Hids by apply length_omap_le.
  split_and!; try done; try lia.
  - destruct (dedupe ucd lines); [done|]. simpl. lia.
  - rewrite Hsize. f_equal. apply Permutation_length.
    apply NoDup_Permutation.
    + apply output_identities_NoDup.
    + apply NoDup_remove_dups.
    + intros p. rewrite elem_of_remove_dups. apply output_identities.
Qed.

Lemma run_statistics_witness :
  original_lines (Statistics 6 4 2 2) = Z.of_nat (length (split_lines (join_lines doc_A)))
  ∧ (original_lines (Statistics 6 4 2 2)
     = final_lines (Statistics 6 4 2 2) + removed_lines (Statistics 6 4 2 2))%Z
  ∧ conversations_found (Statistics 6 4 2 2)
    = Z.of_nat (length (remove_dups
                          (identities latin1 (split_lines (join_lines doc_A))))).
Proof.
  destruct (run_statistics latin1 no_faults log_A_world
              (dedupe_conversation_log latin1 no_faults log_A_world).2
              (join_lines doc_A) (Statistics 6 4 2 2))
    as (H1 & _ & H3 & _ & _ & H6 & _).
  - reflexivity.
  - vm_compute. reflexivity.
  - split_and!; [exact H1 | exact H3 | exact H6].
Defined.

(** X7: no other file is involved.  When the log is missing the run
    returns without a result and changes nothing; in every case, whatever
    fails, each path other than the log and its backup holds after the
    run what it held before. *)
Theorem run_touches_only_log_and_backup (ucd : unicode_data) (flt : faults)
    (w : world) :
  (files w !! log_file = None →
   dedupe_conversation_log ucd flt w = (Ok None, w))
  ∧ ∀ path : string,
      path ≠ log_file → path ≠ backup_file →
      files (dedupe_conversation_log ucd flt w).2 !! path = files w !! path.
Proof.
  unfold dedupe_conversation_log, rename, write_text. split.
  - by intros ->.
  - intros path Hlog Hbak.
    destruct (files w !! log_file) as [content|]; [|done].
    destruct (rename_fails flt); [done|].
    destruct (write_fails flt), (write_residue flt); cbn [snd files];
      rewrite ?(lookup_insert_ne _ log_file path) by done;
      rewrite (lookup_insert_ne _ backup_file path) by done;
      by rewrite lookup_delete_ne.
Qed.

Lemma run_touches_only_log_and_backup_witness :
  dedupe_conversation_log latin1 no_faults (World ∅ []) = (Ok None, World ∅ [])
  ∧ files (dedupe_conversation_log latin1 no_faults log_A_world).2
      !! "README.md"%string
    = files log_A_world !! "README.md"%string.
Proof.
  split.
  - apply (run_touches_only_log_and_backup latin1 no_faults (World ∅ [])).
    reflexivity.
  - apply (run_touches_only_log_and_backup latin1 no_faults log_A_world);
      unfold log_file, backup_file; discriminate.
Defined.

(** X8: a second run replaces the backup.  After two runs in a row with no
    failure the log holds the filtered text, the second run has removed
    nothing, and the backup holds the filtered text too: the original
    content is then in neither file, unless it had no duplicate. *)
Theorem second_run_overwrites_backup (ucd : unicode_data) (flt : faults)
    (w : world) (content : text) :
  files w !! log_file = Some content →
  rename_fails flt = false →
  write_fails flt = false →
  ∃ stats w2,
    dedupe_conversation_log ucd flt (dedupe_conversation_log ucd flt w).2
      = (Ok (Some stats), w2)
    ∧ removed_lines stats = 0%Z
    ∧ files w2 !! log_file = Some (dedupe_text ucd content)
    ∧ files w2 !! backup_file = Some (dedupe_text ucd content).
Proof.
  intros Hlog Hren Hwr.
  rewrite (run_without_failure ucd flt w content Hlog Hren Hwr). cbn [snd].
  match goal with
  | |- context [dedupe_conversation_log ucd flt ?w1] =>
      assert (files w1 !! log_file = Some (dedupe_text ucd content)) as Hlog1
        by (cbn [files]; apply lookup_insert_eq);
      rewrite (run_without_failure ucd flt w1 _ Hlog1 Hren Hwr)
  end.
  assert (split_lines (dedupe_text ucd content)
          = dedupe ucd (split_lines content)) as Hsplit.
  { unfold dedupe_text. apply split_join.
    - apply dedupe_nonempty, split_lines_nonempty.
    - eapply Forall_sublist; [apply dedupe_sublist|].
      apply split_lines_no_newline. }
  eexists _, _. split; [done|]. cbn [removed_lines files].
  rewrite dedupe_text_fixpoint.
  split_and!.
  - rewrite Hsplit, dedupe_fixpoint. lia.
  - by rewrite lookup_insert_eq.
  - rewrite lookup_insert_ne by apply log_file_ne_backup_file.
    by rewrite lookup_insert_eq.
Qed.

Lemma second_run_overwrites_backup_witness :
  ∃ stats w2,
    dedupe_conversation_log latin1 no_faults
      (dedupe_conversation_log latin1 no_faults log_A_world).2
      = (Ok (Some stats), w2)
    ∧ removed_lines stats = 0%Z
    ∧ files w2 !! log_file = Some (dedupe_text latin1 (join_lines doc_A))
    ∧ files w2 !! backup_file = Some (dedupe_text latin1 (join_lines doc_A)).
Proof.
  apply (second_run_overwrites_backup latin1 no_faults log_A_world
           (join_lines doc_A)); reflexivity.
Defined.

(** X9: the seen set only grows, and after any number of lines it holds
    exactly the keys of the entry headers read so far, kept or dropped. *)
Theorem seen_set_grows (ucd : unicode_data) (pre post : list text) :
  seen_conversations (scan ucd pre)
    ⊆ seen_conversations (scan ucd (pre ++ post))
  ∧ ∀ key, key ∈ seen_conversations (scan ucd pre)
           ↔ ∃ line i d t,
               line ∈ pre ∧ chat_match ucd line = Some (i, d, t)
               ∧ key = conversation_key i d.
Proof.
  split.
  - intros key. rewrite !scan_seen, keys_of_app, elem_of_app. auto.
  - intros key. rewrite scan_seen. unfold keys_of.
    rewrite list_elem_of_omap. split.
    + intros (line & Hin & (i & d & t & Hm & ->)%line_key_Some).
      by exists line, i, d, t.
    + intros (line & i & d & t & Hin & Hm & ->). exists line.
      split; [done|]. apply line_key_Some. by exists i, d, t.
Qed.

Lemma seen_set_grows_witness :
  conversation_key (str "abc123") (str "2024-01-01")
    ∈ seen_conversations (scan latin1 doc_A).
Proof.
  destruct (seen_set_grows latin1 doc_A []) as [_ Hkeys].
  apply Hkeys. exists first_abc, (str "abc123"), (str "2024-01-01"), (str "First").
  split_and!; [by left | vm_compute; reflexivity | reflexivity].
Defined.

(** * Further properties of the analyzer *)

Lemma count_maximal_runs_bounds (w : N → bool) (s : text) :
  (2 * count_maximal_runs w true s ≤ length s)%nat
  ∧ (2 * count_maximal_runs w false s ≤ length s + 1)%nat.
Proof.
  induction s as [|c s [IHin IHout]]; simpl; [lia|].
  destruct (w c); simpl; lia.
Qed.

Lemma count_maximal_runs_flag (w : N → bool) (s : text) :
  (count_maximal_runs w true s ≤ count_maximal_runs w false s)%nat.
Proof. destruct s as [|c s]; simpl; [done|]. destruct (w c); simpl; lia. Qed.

Lemma count_maximal_runs_zero (w : N → bool) (s : text) :
  count_maximal_runs w false s = 0%nat ↔ Forall (λ c, w c = false) s.
Proof.
  induction s as [|c s IH]; simpl; [by split|].
  rewrite Forall_cons. destruct (w c); simpl.
  - split; [done | by intros [? _]].
  - rewrite IH. tauto.
Qed.

(** Runs add up across a character that belongs to none. *)
Lemma count_maximal_runs_app (w : N → bool) (in_run : bool)
    (a : text) (c : N) (b : text) :
  w c = false →
  count_maximal_runs w in_run (a ++ c :: b)
  = (count_maximal_runs w in_run a + count_maximal_runs w false b)%nat.
Proof.
  intros Hc. revert in_run. induction a as [|x a IH]; intros in_run; simpl.
  - by rewrite Hc.
  - destruct (w x); rewrite IH; lia.
Qed.

Lemma re_sub_runs_length (cls : N → bool) (repl : N) (in_run : bool)
    (s : text) :
  (length (re_sub_runs cls [repl] in_run s) ≤ length s)%nat.
Proof.
  revert in_run. induction s as [|c s IH]; intros in_run; simpl; [done|].
  destruct (cls c).
  - destruct in_run; simpl; [specialize (IH true) | specialize (IH true)]; lia.
  - simpl. specialize (IH false). lia.
Qed.

Lemma utf8_size_length (s : text) : (Z.of_nat (length s) ≤ utf8_size s)%Z.
Proof.
  induction s as [|c s IH]; simpl; [done|].
  unfold utf8_width. repeat case_match; lia.
Qed.

Lemma utf8_size_zero (s : text) : utf8_size s = 0%Z ↔ s = [].
Proof.
  split; [|by intros ->]. intros Hz. pose proof (utf8_size_length s).
  destruct s; [done|]. simpl in *. lia.
Qed.

Lemma count_tokens_length (ucd : unicode_data) (s : text) :
  (2 * count_tokens ucd s ≤ length s + 1)%nat.
Proof.
  unfold count_tokens.
  destruct (re_split_runs_count (is_separator ucd)
              (re_sub_runs (isspace ucd) [space] false s)) as [-> _].
  pose proof (count_maximal_runs_bounds
                (λ c, negb (is_separator ucd c))
                (re_sub_runs (isspace ucd) [space] false s)) as [_ Hb].
  pose proof (re_sub_runs_length (isspace ucd) space false s). lia.
Qed.

Lemma count_semantic_blocks_length (s : text) :
  (count_semantic_blocks s ≤ length s)%nat.
Proof.
  induction s as [|c s IH]; [done|]. cbn [count_semantic_blocks length].
  case_match; lia.
Qed.

Lemma nonblank_lines_length (ucd : unicode_data) (lines : list text) :
  (length (filter (λ l, strip_truthy ucd l = true) lines)
   ≤ length (join_lines lines))%nat.
Proof.
  assert (∀ l, (length (filter (λ l, strip_truthy ucd l = true) [l])
                ≤ length l)%nat) as Hone.
  { intros [|c l]; [done|]. pose proof (length_filter
      (λ l, strip_truthy ucd l = true) [c :: l]). simpl in *. lia. }
  induction lines as [|l lines IH]; [done|].
  destruct lines as [|l' lines]; [apply Hone|].
  change (join_lines (l :: l' :: lines))
    with (l ++ newline :: join_lines (l' :: lines)).
  rewrite length_app. cbn [length].
  change (l :: l' :: lines) with ([l] ++ l' :: lines).
  rewrite filter_app, length_app. specialize (Hone l). lia.
Qed.

Section TokensFurther.
Context (ucd : unicode_data).
Hypothesis space_not_word : ∀ c, isspace ucd c = true → is_word ucd c = false.
Hypothesis blank_not_word : is_word ucd space = false.

Lemma count_tokens_zero (s : text) :
  count_tokens ucd s = 0%nat ↔ Forall (λ c, is_word ucd c = false) s.
Proof.
  rewrite count_tokens_word_runs by done. apply count_maximal_runs_zero.
Qed.

Lemma count_tokens_app (a : text) (c : N) (b : text) :
  is_word ucd c = false →
  count_tokens ucd (a ++ c :: b)
  = (count_tokens ucd a + count_tokens ucd b)%nat.
Proof.
  intros Hc. rewrite !count_tokens_word_runs by done.
  by apply count_maximal_runs_app.
Qed.

Lemma count_tokens_join (lines : list text) :
  is_word ucd newline = false →
  count_tokens ucd (join_lines lines)
  = sum_list (count_tokens ucd <$> lines).
Proof.
  intros Hnl. induction lines as [|l lines IH]; [done|].
  destruct lines as [|l' lines].
  - simpl. lia.
  - change (join_lines (l :: l' :: lines))
      with (l ++ newline :: join_lines (l' :: lines)).
    rewrite count_tokens_app by done. rewrite IH. done.
Qed.

Lemma count_semantic_blocks_runs (s : text) :
  (∀ c, is_upper_or_underscore c = true → is_word ucd c = true) →
  is_word ucd at_sign = false →
  (count_semantic_blocks s ≤ count_maximal_runs (is_word ucd) true s)%nat.
Proof.
  intros Hupper Hat. induction s as [|c s IH]; [done|].
  cbn [count_semantic_blocks count_maximal_runs].
  pose proof (count_maximal_runs_flag (is_word ucd) s) as Hflag.
  destruct (N.eqb_spec c at_sign) as [->|Hc]; cbn [andb].
  - rewrite Hat. destruct s as [|c' s']; [simpl in *; lia|].
    destruct (is_upper_or_underscore c') eqn:Hu; [|lia].
    cbn [count_maximal_runs] in *. rewrite (Hupper c' Hu) in *. lia.
  - destruct (is_word ucd c); lia.
Qed.

End TokensFurther.

(** X10: however the character tables classify, a text of [n] characters
    has at most [(n + 1) / 2] tokens, and never more tokens than bytes in
    its UTF-8 encoding. *)
Theorem count_tokens_bounds (ucd : unicode_data) (s : text) :
  (2 * count_tokens ucd s ≤ length s + 1)%nat
  ∧ (Z.of_nat (count_tokens ucd s) ≤ utf8_size s)%Z.
Proof.
  pose proof (count_tokens_length ucd s).
  pose proof (utf8_size_length s). split; [done|lia].
Qed.

(** X11: given that white space is not a word character, a text has no
    token exactly when it has no word character; an empty text, or one of
    blanks and punctuation only, counts zero. *)
Theorem count_tokens_zero_iff_no_word (ucd : unicode_data) (s : text) :
  (∀ c, isspace ucd c = true → is_word ucd c = false) →
  is_word ucd space = false →
  count_tokens ucd s = 0%nat ↔ Forall (λ c, is_word ucd c = false) s.
Proof. intros. by apply count_tokens_zero. Qed.

Lemma count_tokens_zero_iff_no_word_witness :
  count_tokens latin1 (str "-- ! --") = 0%nat.
Proof.
  apply (count_tokens_zero_iff_no_word latin1 (str "-- ! --")).
  - apply latin1_space_not_word.
  - reflexivity.
  - vm_compute. repeat constructor.
Defined.

(** X12: given that white space is not a word character, token counts add
    up across any character that is not a word character; and, a line feed
    being none, the token count of a text is the sum of the token counts
    of its lines. *)
Theorem count_tokens_adds_up (ucd : unicode_data) :
  (∀ c, isspace ucd c = true → is_word ucd c = false) →
  is_word ucd space = false →
  (∀ (a : text) (c : N) (b : text),
     is_word ucd c = false →
     count_tokens ucd (a ++ c :: b)
     = (count_tokens ucd a + count_tokens ucd b)%nat)
  ∧ (is_word ucd newline = false →
     ∀ content : text,
       count_tokens ucd content
       = sum_list (count_tokens ucd <$> split_lines content)).
Proof.
  intros Hspace Hblank. split.
  - intros a c b Hc. by apply count_tokens_app.
  - intros Hnl content. rewrite <-(join_split content) at 1.
    by apply count_tokens_join.
Qed.

Lemma count_tokens_adds_up_witness :
  count_tokens latin1 (str "one two" ++ newline :: str "three")
  = (count_tokens latin1 (str "one two") + count_tokens latin1 (str "three"))%nat
  ∧ count_tokens latin1 (str "one two" ++ newline :: str "three")
    = sum_list (count_tokens latin1
                  <$> split_lines (str "one two" ++ newline :: str "three")).
Proof.
  destruct (count_tokens_adds_up latin1) as [Happ Hlines].
  - apply latin1_space_not_word.
  - reflexivity.
  - split; [apply Happ; reflexivity | apply Hlines; reflexivity].
Defined.

(** X13: given that white space and the at sign are not word characters
    and that the characters of [[A-Z_]] are, a text has at most as many
    semantic blocks as tokens: every match of [@[A-Z_]+] brings a word run
    of its own. *)
Theorem semantic_blocks_le_tokens (ucd : unicode_data) (s : text) :
  (∀ c, isspace ucd c = true → is_word ucd c = false) →
  is_word ucd space = false →
  (∀ c, is_upper_or_underscore c = true → is_word ucd c = true) →
  is_word ucd at_sign = false →
  (count_semantic_blocks s ≤ count_tokens ucd s)%nat.
Proof.
  intros Hspace Hblank Hupper Hat. rewrite count_tokens_word_runs by done.
  pose proof (count_semantic_blocks_runs ucd s Hupper Hat).
  pose proof (count_maximal_runs_flag (is_word ucd) s). lia.
Qed.

Lemma latin1_upper_is_word (c : N) :
  is_upper_or_underscore c = true → is_word latin1 c = true.
Proof.
  unfold is_upper_or_underscore, is_word, underscore. simpl.
  unfold latin1_isalnum. intros Hu.
  repeat first [rewrite orb_true_iff in Hu | rewrite in_range_true in Hu
               | rewrite N.eqb_eq in Hu].
  repeat first [rewrite orb_true_iff | rewrite in_range_true
               | rewrite N.eqb_eq].
  lia.
Qed.

Lemma semantic_blocks_le_tokens_witness :
  (count_semantic_blocks (str "@STATE ok @FLOW_A b")
   ≤ count_tokens latin1 (str "@STATE ok @FLOW_A b"))%nat.
Proof.
  apply (semantic_blocks_le_tokens latin1 (str "@STATE ok @FLOW_A b")).
  - apply latin1_space_not_word.
  - reflexivity.
  - apply latin1_upper_is_word.
  - reflexivity.
Defined.

(** ** [analyze_file] and [main] *)

Lemma analyze_file_Some (ucd : unicode_data) (fs : gmap string (list N))
    (file : string) (a : analysis) :
  analyze_file ucd fs file = Some a ↔
  ∃ content,
    fs !! aicf_path file = Some content
    ∧ a = Analysis file
            (Z.of_nat (length (filter (λ l, strip_truthy ucd l = true)
                                 (split_lines content))))
            (Z.of_nat (count_tokens ucd content))
            (utf8_size content)
            (if (0 <? utf8_size content)%Z
             then (inject_Z (Z.of_nat (count_tokens ucd content))
                   / inject_Z (utf8_size content))%Q
             else 0%Q)
            (Z.of_nat (count_semantic_blocks content)).
Proof.
  unfold analyze_file. destruct (fs !! aicf_path file) as [content|].
  - split.
    + intros [= <-]. by exists content.
    + intros (content' & [= <-] & ->). done.
  - split; [done | by intros (? & ? & _)].
Qed.

(** X14: [analyze_file] answers [None] exactly for a missing file.  For a
    file that exists, the size is zero exactly when the content is empty,
    and the counts of non-blank lines, of tokens and of semantic blocks
    lie between zero and the size in bytes; an empty file has all of them
    zero. *)
Theorem analyze_file_counts (ucd : unicode_data) (fs : gmap string (list N))
    (file : string) :
  (analyze_file ucd fs file = None ↔ fs !! aicf_path file = None)
  ∧ ∀ a content,
      fs !! aicf_path file = Some content →
      analyze_file ucd fs file = Some a →
      a_path a = file
      ∧ a_size a = utf8_size content
      ∧ (a_size a = 0 ↔ content = [])%Z
      ∧ (0 ≤ a_lines a ≤ a_size a)%Z
      ∧ (0 ≤ a_tokens a ≤ a_size a)%Z
      ∧ (0 ≤ a_semantic_blocks a ≤ a_size a)%Z.
Proof.
  split.
  - unfold analyze_file. by destruct (fs !! aicf_path file).
  - intros a content Hfile (content' & Hfile' & ->)%analyze_file_Some.
    rewrite Hfile in Hfile'. injection Hfile' as <-. cbn.
    pose proof (utf8_size_length content) as Hlen.
    pose proof (count_tokens_length ucd content) as Htok.
    pose proof (count_semantic_blocks_length content) as Hblocks.
    pose proof (nonblank_lines_length ucd (split_lines content)) as Hlines.
    rewrite join_split in Hlines.
    split_and!; try done; try lia. apply utf8_size_zero.
Qed.

Lemma analyze_file_counts_witness :
  a_path (Analysis "index.aicf" 1 0 3 (0 # 3)%Q 0) = "index.aicf"%string
  ∧ (0 ≤ a_tokens (Analysis "index.aicf" 1 0 3 (0 # 3)%Q 0)
     ≤ a_size (Analysis "index.aicf" 1 0 3 (0 # 3)%Q 0))%Z.
Proof.
  destruct (analyze_file_counts latin1 punctuation_only_fs "index.aicf")
    as [_ Hcounts].
  destruct (Hcounts (Analysis "index.aicf" 1 0 3 (0 # 3)%Q 0) (str "---"))
    as (Hpath & _ & _ & _ & Htok & _).
  - reflexivity.
  - vm_compute. reflexivity.
  - split; [exact Hpath | exact Htok].
Defined.

Lemma sum_of_app (field : analysis → Z) (l k : list analysis) :
  sum_of field (l ++ k) = (sum_of field l + sum_of field k)%Z.
Proof.
  unfold sum_of. induction l as [|a l IH]; simpl; [done|]. rewrite IH. lia.
Qed.

Lemma sum_of_nonneg (field : analysis → Z) (l : list analysis) :
  Forall (λ a, 0 ≤ field a)%Z l → (0 ≤ sum_of field l)%Z.
Proof. unfold sum_of. induction 1; simpl; lia. Qed.

Lemma sum_of_zero (field : analysis → Z) (l : list analysis) :
  Forall (λ a, 0 ≤ field a)%Z l →
  sum_of field l = 0%Z ↔ Forall (λ a, field a = 0%Z) l.
Proof.
  induction 1 as [|a l Ha Hl IH]; [by split|].
  pose proof (sum_of_nonneg field l Hl) as Hnn.
  rewrite Forall_cons, <-IH. unfold sum_of in *. simpl. lia.
Qed.

(** The loop of [main] with any list of files and any starting totals. *)
Lemma totals_fold (ucd : unicode_data) (fs : gmap string (list N))
    (names : list string) (shown : list analysis) (t s b : Z) :
  foldl (λ '(shown, (total_tokens, total_size, total_blocks)) file,
           match analyze_file ucd fs file with
           | Some a =>
               (shown ++ [a],
                ((total_tokens + a_tokens a)%Z,
                 (total_size + a_size a)%Z,
                 (total_blocks + a_semantic_blocks a)%Z))
           | None => (shown, (total_tokens, total_size, total_blocks))
           end)
        (shown, (t, s, b)) names
  = (shown ++ omap (analyze_file ucd fs) names,
     ((t + sum_of a_tokens (omap (analyze_file ucd fs) names))%Z,
      (s + sum_of a_size (omap (analyze_file ucd fs) names))%Z,
      (b + sum_of a_semantic_blocks (omap (analyze_file ucd fs) names))%Z)).
Proof.
  revert shown t s b. induction names as [|file names IH];
    intros shown t s b; csimpl.
  - rewrite app_nil_r. unfold sum_of. cbn [foldr]. by rewrite !Z.add_0_r.
  - destruct (analyze_file ucd fs file) as [a|]; csimpl; rewrite IH.
    + rewrite <-app_assoc. unfold sum_of. cbn [foldr].
      by rewrite !Z.add_assoc.
    + done.
Qed.

Lemma main_totals_sums (ucd : unicode_data) (fs : gmap string (list N)) :
  main_totals ucd fs
  = (analyses ucd fs,
     (sum_of a_tokens (analyses ucd fs),
      sum_of a_size (analyses ucd fs),
      sum_of a_semantic_blocks (analyses ucd fs))).
Proof. unfold main_totals. by rewrite totals_fold. Qed.

Lemma analyses_elem (ucd : unicode_data) (fs : gmap string (list N))
    (a : analysis) :
  a ∈ analyses ucd fs ↔
  ∃ file, file ∈ aicf_files ∧ analyze_file ucd fs file = Some a.
Proof. unfold analyses. apply list_elem_of_omap. Qed.

Lemma analyses_nonneg (ucd : unicode_data) (fs : gmap string (list N)) :
  Forall (λ a, 0 ≤ a_tokens a)%Z (analyses ucd fs)
  ∧ Forall (λ a, 0 ≤ a_size a)%Z (analyses ucd fs).
Proof.
  split; apply Forall_forall; intros a (file & _ & Ha)%analyses_elem;
    apply analyze_file_Some in Ha as (content & _ & ->); cbn; [lia|].
  pose proof (utf8_size_length content). lia.
Qed.

(** X15: the loop of [main] shows one analysis for each listed file that
    exists, in the order of the list, and its three totals are the sums of
    the tokens, sizes and block counts of those analyses. *)
Theorem main_totals_are_sums (ucd : unicode_data)
    (fs : gmap string (list N)) :
  main_totals ucd fs
  = (omap (analyze_file ucd fs) aicf_files,
     (sum_of a_tokens (omap (analyze_file ucd fs) aicf_files),
      sum_of a_size (omap (analyze_file ucd fs) aicf_files),
      sum_of a_semantic_blocks (omap (analyze_file ucd fs) aicf_files))).
Proof. apply main_totals_sums. Qed.



Lemma sum_of_pos (field : analysis → Z) (l : list analysis) :
  Forall (λ a, 0 ≤ field a)%Z l →
  (0 < sum_of field l)%Z ↔ ∃ a, a ∈ l ∧ (0 < field a)%Z.
Proof.
  induction 1 as [|a l Ha Hl IH].
  - split; [unfold sum_of; simpl; lia|]. intros (a & Hin & _).
    by apply not_elem_of_nil in Hin.
  - pose proof (sum_of_nonneg field l Hl) as Hnn.
    change (sum_of field (a :: l)) with (field a + sum_of field l)%Z. split.
    + intros Hpos. destruct (decide (0 < field a)%Z) as [Hfa|Hfa].
      * exists a. split; [by left | done].
      * destruct IH as [IH _]. destruct IH as (b & Hin & Hb); [lia|].
        exists b. split; [by right | done].
    + intros (b & [->|Hin]%elem_of_cons & Hb); [lia|].
      destruct IH as [_ IH]. assert (0 < sum_of field l)%Z by eauto. lia.
Qed.

Lemma main_raises_totals (ucd : unicode_data) (fs : gmap string (list N)) :
  main ucd fs = Raise ZeroDivisionError ↔
  (0 < sum_of a_size (analyses ucd fs))%Z
  ∧ sum_of a_tokens (analyses ucd fs) = 0%Z.
Proof.
  destruct (analyses_nonneg ucd fs) as [Htok Hsize].
  apply sum_of_nonneg in Htok, Hsize.
  unfold main. rewrite main_totals_sums.
  unfold overall_statistics, true_div. simpl (1024 =? 0)%Z.
  destruct (Z.ltb_spec 0 (sum_of a_size (analyses ucd fs))) as [Hs|Hs];
    [|split; [done | lia]].
  destruct (Z.eqb_spec (sum_of a_size (analyses ucd fs)) 0); [lia|].
  destruct (Z.eqb_spec (sum_of a_tokens (analyses ucd fs) * 15) 0);
    split; try done; lia.
Qed.

(** X17: which files make [main] fail.  Given that white space is not a
    word character, [main] ends in [ZeroDivisionError] exactly when some
    listed file exists with content and no listed file that exists
    contains a word character; and it reports that no valid file was found
    exactly when every listed file is missing or empty. *)
Theorem main_fails_iff_no_word (ucd : unicode_data)
    (fs : gmap string (list N)) :
  (∀ c, isspace ucd c = true → is_word ucd c = false) →
  is_word ucd space = false →
  (main ucd fs = Raise ZeroDivisionError ↔
   (∃ file content,
      file ∈ aicf_files ∧ fs !! aicf_path file = Some content ∧ content ≠ [])
   ∧ (∀ file content,
        file ∈ aicf_files → fs !! aicf_path file = Some content →
        Forall (λ c, is_word ucd c = false) content))
  ∧ (main ucd fs = Ok (analyses ucd fs, None) ↔
     ∀ file content,
       file ∈ aicf_files → fs !! aicf_path file = Some content →
       content = []).
Proof.
  intros Hspace Hblank.
  destruct (analyses_nonneg ucd fs) as [Htok Hsize].
  assert ((0 < sum_of a_size (analyses ucd fs))%Z ↔
          ∃ file content, file ∈ aicf_files
            ∧ fs !! aicf_path file = Some content ∧ content ≠ []) as Hpos.
  { rewrite sum_of_pos by done. split.
    - intros (a & (file & Hin & Ha)%analyses_elem & Hsz).
      apply analyze_file_Some in Ha as (content & Hfile & ->). cbn in Hsz.
      exists file, content. split_and!; [done|done|]. by intros ->.
    - intros (file & content & Hin & Hfile & Hne).
      eexists. split.
      + apply analyses_elem. exists file. split; [done|].
        apply analyze_file_Some. by exists content.
      + cbn. pose proof (utf8_size_length content).
        destruct content; [done|]. simpl in *. lia. }
  assert (sum_of a_tokens (analyses ucd fs) = 0%Z ↔
          ∀ file content, file ∈ aicf_files →
            fs !! aicf_path file = Some content →
            Forall (λ c, is_word ucd c = false) content) as Hzero.
  { rewrite sum_of_zero by done. rewrite Forall_forall. split.
    - intros Hall file content Hin Hfile.
      apply (count_tokens_zero ucd Hspace Hblank).
      assert (a_tokens (Analysis file
                (Z.of_nat (length (filter (λ l, strip_truthy ucd l = true)
                                     (split_lines content))))
                (Z.of_nat (count_tokens ucd content)) (utf8_size content)
                (if (0 <? utf8_size content)%Z
                 then (inject_Z (Z.of_nat (count_tokens ucd content))
                       / inject_Z (utf8_size content))%Q
                 else 0%Q)
                (Z.of_nat (count_semantic_blocks content))) = 0%Z) as Hz.
      { apply Hall, analyses_elem. exists file. split; [done|].
        apply analyze_file_Some. by exists content. }
      cbn in Hz. lia.
    - intros Hall a (file & Hin & Ha)%analyses_elem.
      apply analyze_file_Some in Ha as (content & Hfile & ->). cbn.
      specialize (Hall file content Hin Hfile).
      apply (count_tokens_zero ucd Hspace Hblank) in Hall. lia. }
  split.
  - rewrite main_raises_totals, Hpos, Hzero. done.
  - pose proof (sum_of_nonneg _ _ Hsize) as Hnn.
    unfold main. rewrite main_totals_sums.
    destruct (Z.ltb_spec 0 (sum_of a_size (analyses ucd fs))) as [Hs|Hs].
    + split.
      * destruct (overall_statistics _ _ _); done.
      * intros Hall. apply Hpos in Hs as (file & content & Hin & Hfile & Hne).
        by specialize (Hall file content Hin Hfile).
    + split; [|done]. intros _ file content Hin Hfile.
      destruct (decide (content = [])) as [|Hne]; [done|].
      assert (0 < sum_of a_size (analyses ucd fs))%Z; [|lia].
      apply Hpos. by exists file, content.
Qed.

Lemma main_fails_iff_no_word_witness :
  main latin1 punctuation_only_fs = Raise ZeroDivisionError
  ∧ main latin1 {[ aicf_path "index.aicf" := [] ]}
    = Ok (analyses latin1 {[ aicf_path "index.aicf" := [] ]}, None).
Proof.
  split.
  - destruct (main_fails_iff_no_word latin1 punctuation_only_fs)
      as [Hfail _]; [apply latin1_space_not_word | reflexivity |].
    apply Hfail. split.
    + exists "index.aicf"%string, (str "---").
      split_and!; [by left | reflexivity | done].
    + intros file content Hin Hfile.
      assert (content = str "---") as ->.
      { unfold punctuation_only_fs in Hfile.
        apply lookup_singleton_Some in Hfile as [_ <-]. done. }
      vm_compute. repeat constructor.
  - destruct (main_fails_iff_no_word latin1
                {[ aicf_path "index.aicf" := [] ]})
      as [_ Hnone]; [apply latin1_space_not_word | reflexivity |].
    apply Hnone. intros file content Hin Hfile.
    by apply lookup_singleton_Some in Hfile as [_ <-].
Defined.

Lemma findall_blocks_length (current : option text) (content : text) :
  length (findall_blocks current content)
  = (match current with Some _ => 1 | None => 0 end
     + count_semantic_blocks content)%nat.
Proof.
  revert current. induction content as [|c rest IH]; intros current.
  - by destruct current.
  - cbn [findall_blocks count_semantic_blocks].
    destruct current as [m|].
    + destruct (is_upper_or_underscore c) eqn:Hc.
      * rewrite IH. assert ((c =? at_sign) = false) as ->; [|done].
        apply N.eqb_neq. by intros ->.
      * cbn [length]. destruct ((c =? at_sign) && _); rewrite IH; lia.
    + destruct ((c =? at_sign) && _); rewrite IH; lia.
Qed.

Lemma findall_blocks_shape (current : option text) (content : text) :
  (∀ m, current = Some m →
        ∃ run, m = at_sign :: run
               ∧ Forall (λ c, is_upper_or_underscore c = true) run
               ∧ (run = [] → ∃ c rest, content = c :: rest
                                       ∧ is_upper_or_underscore c = true)) →
  Forall (λ m, ∃ run, m = at_sign :: run ∧ run ≠ []
                      ∧ Forall (λ c, is_upper_or_underscore c = true) run)
         (findall_blocks current content).
Proof.
  revert current. induction content as [|c rest IH]; intros current Hcur.
  - destruct current as [m|]; [|constructor]. simpl.
    destruct (Hcur m eq_refl) as (run & -> & Hrun & Hnext).
    repeat constructor. exists run. split_and!; [done| |done].
    intros ->. by destruct Hnext as (? & ? & ? & _).
  - cbn [findall_blocks].
    assert (Forall (λ m, ∃ run, m = at_sign :: run ∧ run ≠ []
                      ∧ Forall (λ c, is_upper_or_underscore c = true) run)
              (if (c =? at_sign) &&
                  match rest with
                  | c' :: _ => is_upper_or_underscore c'
                  | [] => false
                  end
               then findall_blocks (Some [c]) rest
               else findall_blocks None rest)) as Hresume.
    { destruct (N.eqb_spec c at_sign) as [->|_]; cbn [andb].
      - destruct rest as [|c' rest'] eqn:Hrest; [apply IH; by intros ? [=]|].
        destruct (is_upper_or_underscore c') eqn:Hc'; [|apply IH; by intros ? [=]].
        apply IH. intros m [= <-]. exists []. split_and!; [done|done|].
        intros _. by exists c', rest'.
      - apply IH. by intros ? [=]. }
    destruct current as [m|]; [|done].
    destruct (Hcur m eq_refl) as (run & -> & Hrun & Hnext).
    destruct (is_upper_or_underscore c) eqn:Hc.
    + apply IH. intros ? [= <-]. exists (run ++ [c]).
      split_and!; [done| |].
      * apply Forall_app. split; [done|]. by repeat constructor.
      * intros Hnil. by destruct run.
    + constructor; [|done]. exists run. split_and!; [done| |done].
      intros ->. destruct Hnext as (c0 & rest0 & [= <- <-] & Hc0); [done|].
      congruence.
Qed.

(** X18: the matches of [@[A-Z_]+] found from left to right, each taken as
    long as possible, are as many as the at signs that are directly
    followed by a character of [[A-Z_]], which is what the block count
    counts; and every match is an at sign followed by a non-empty run of
    such characters. *)
Theorem findall_blocks_counted (content : text) :
  length (findall_blocks None content) = count_semantic_blocks content
  ∧ Forall (λ m, ∃ run, m = at_sign :: run ∧ run ≠ []
                        ∧ Forall (λ c, is_upper_or_underscore c = true) run)
           (findall_blocks None content).
Proof.
  split.
  - by rewrite findall_blocks_length.
  - apply findall_blocks_shape. by intros ? [=].
Qed.

Example findall_blocks_sample :
  findall_blocks None (str "@@AB @a @_x@Y@") = [str "@AB"; str "@_"; str "@Y"].
Proof. vm_compute. reflexivity. Qed.
